(** * A shallow embedding of the Exasol websocket client.

    The development follows the two source files of the client: the
    statement engine ([asyncSend], [send], [Execute], [FetchChan]) and the
    bulk IMPORT/EXPORT orchestration of [bulk-api.go] ([StreamExecute],
    [StreamQuery], [BulkExecute], [BulkQuery] and their private helpers).

    Go code is effectful; it is embedded here as state passing over a
    connection record, in a small monad whose outcomes distinguish a normal
    return from a run-time panic, a process exit through [log.Fatal], a
    goroutine that waits for ever, and an exhausted iteration budget.  Go's
    [error] values are ordinary results: [None] is [nil].

    What lies outside the client (the websocket peer, the local proxy of
    each bulk attempt, the scheduler's choice in a [select]) is an
    environment [Env] over which every definition is parametrised.  A
    goroutine is run to its end where its result is used; the two races of
    the bulk API are decided on a logical clock.

    The file has three parts: the embedding, the vocabulary of the
    properties with some example sessions, and the properties. *)

From Stdlib Require Import ZArith List String Ascii Bool Lia.
From stdpp Require Import base option gmap strings pretty.
Import ListNotations.

Local Open Scope Z_scope.
Local Open Scope string_scope.

(** ** Text matching

    Both regular expressions of the client are literal enough to be
    embedded as direct matchers on byte strings. *)

Module Text.

Definition newline : ascii := Ascii.ascii_of_nat 10.

(** [prefix p s]: [s] starts with [p]. *)
Fixpoint prefix (p s : string) : bool :=
  match p, s with
  | EmptyString, _ => true
  | String a p', String b s' => if Ascii.eqb a b then prefix p' s' else false
  | String _ _, EmptyString => false
  end.

(** [contains p s]: an unanchored match of the literal [p] somewhere in [s]. *)
Fixpoint contains (p s : string) : bool :=
  prefix p s ||
  match s with
  | EmptyString => false
  | String _ s' => contains p s'
  end.

Fixpoint drop (n : nat) (s : string) : string :=
  match n, s with
  | O, _ => s
  | S n', String _ s' => drop n' s'
  | S _, EmptyString => EmptyString
  end.

(** [dot_plus_then lit s]: [s] starts with a match of [.+lit]; the dot of
    Go's regexp package matches every character but the line feed. *)
Fixpoint dot_plus_then (lit s : string) : bool :=
  match s with
  | EmptyString => false
  | String a s' =>
      if Ascii.eqb a newline then false
      else prefix lit s' || dot_plus_then lit s'
  end.

(** [lit_dot_plus_lit l1 l2 s]: an unanchored match of [l1.+l2] in [s]. *)
Fixpoint lit_dot_plus_lit (l1 l2 s : string) : bool :=
  (prefix l1 s && dot_plus_then l2 (drop (String.length l1) s)) ||
  match s with
  | EmptyString => false
  | String _ s' => lit_dot_plus_lit l1 l2 s'
  end.

End Text.

(** [retryableError] of bulk-api.go: the error is not nil and its message
    matches [failed after 0 bytes.+Connection refused]. *)
Definition retryableError (err : option string) : bool :=
  match err with
  | Some msg => Text.lit_dot_plus_lit "failed after 0 bytes" "Connection refused" msg
  | None => false
  end.

(** The test of [Execute] on the error of a parameterised execution:
    [regexp.MustCompile("Statement handle not found").MatchString(err.Error())]. *)
Definition handleNotFound (msg : string) : bool :=
  Text.contains "Statement handle not found" msg.

(** ** Wire values

    Decoded JSON, as [encoding/json] hands it to the client in
    [interface{}] values.  Numbers arrive as [float64]; the client uses them
    only as handles, row counts and row offsets, which are integers far
    below 2^53, where [float64] arithmetic is exact, so they are carried as
    [Z].  A [map[string]interface{}] is an association list read at its
    first binding; the [nil] map is the empty list. *)

#[warnings="-register-all"]
Inductive value : Type :=
| VNull
| VBool (b : bool)
| VNum (n : Z)
| VStr (s : string)
| VArr (l : list value)
| VObj (o : list (string * value)).

Definition obj : Type := list (string * value).

(** [m[key]] on a Go map held in an interface: [None] is the nil interface
    (key absent, or JSON null). *)
Fixpoint index (key : string) (m : obj) : option value :=
  match m with
  | [] => None
  | (k, v) :: m' =>
      if String.eqb k key then
        match v with VNull => None | _ => Some v end
      else index key m'
  end.

(** The [comma, ok] form: whether the key is present at all. *)
Fixpoint has_key (key : string) (m : obj) : bool :=
  match m with
  | [] => false
  | (k, _) :: m' => String.eqb k key || has_key key m'
  end.

(** ** Requests written to the websocket

    One constructor per request struct of the client; the first field is
    the [Command] string.  The last two are the requests of [getPrepStmt]
    and [closePrepStmt], whose structs are not in the source files. *)

Inductive Request : Type :=
| executeStmtJSON (Command currentSchema SQLtext : string)
| execPrepStmtJSON (Command : string) (StatementHandle : Z)
    (NumColumns NumRows : nat) (Columns : list value) (Data : list (list value))
| fetchJSON (Command : string) (ResultSetHandle StartPosition : Z) (NumBytes : Z)
| closeResultSetJSON (Command : string) (ResultSetHandles : list Z)
| createPrepStmtJSON (Command currentSchema SQLtext : string)
| closePrepStmtJSON (Command : string) (StatementHandle : Z).

Definition is_fetch (r : Request) : bool :=
  match r with fetchJSON _ _ _ _ => true | _ => false end.


(** What the peer does with one request: the write fails, or it goes
    through and the read that follows fails or decodes one response. *)
Inductive Incoming : Type :=
| ReadError (e : string)             (* [ws.ReadJSON] fails *)
| Response (response : obj).         (* one decoded response *)

Inductive Reply : Type :=
| WriteError (e : string)            (* [ws.WriteJSON] fails *)
| Written (i : Incoming).

(** ** The bulk side channel

    [Proxy] (the local endpoint the server connects back to) is an external
    collaborator; what it does on one attempt is data of the environment.
    Instants are nanoseconds on a clock started when the [select]
    statement of the attempt is entered; [None] is "never". *)

Inductive Case : Type := DataCase | RespCase | TimerCase.

Definition instant : Type := option Z.

Definition error : Type := option string.

Definition bytes : Type := list Byte.byte.

(** A [chan []byte] as the party draining it sees it: the chunks sent on
    it, in order, its capacity, and whether it has been closed. *)
Record ByteChan : Type := {
  chunks : list bytes;
  capacity : nat;
  is_closed : bool
}.

(** One call of [proxy.Write] or [proxy.Read]: when it returns, the byte
    count and the error it returns. *)
Record Transfer : Type := {
  xfer_at : instant;
  xfer_bytes : Z;
  xfer_err : error
}.

Record Attempt : Type := {
  proxy_err : error;                 (* result of [NewProxy] *)
  proxy_host : string;
  proxy_port : Z;
  Write : ByteChan -> Transfer;      (* [proxy.Write(data)] *)
  Read : Transfer;                   (* [proxy.Read(r.Data, r.stop)] *)
  Read_chunks : list bytes;          (* the chunks that call sends on [r.Data] *)
  resp_at : instant;                 (* when the reply to the SQL command is read *)
  tiebreak : Case                    (* the scheduler's pick among cases ready together *)
}.

(** ** Configuration, connection, environment *)

Record ConnConf : Type := {
  Host : string;
  Port : Z;
  Timeout : Z;                       (* uint32, in seconds *)
  SuppressError : bool;
  CachePrepStmts : bool
}.

Record prepStmt : Type := {
  sth : Z;
  columnDefs : list value
}.

(** [wire], [errlog] and [proxies] are ghost fields: the requests handed to
    [ws.WriteJSON] so far (oldest first), the messages passed to the error
    log, and the number of calls of [NewProxy]. *)
Record Conn : Type := {
  Conf : ConnConf;
  prepStmtCache : gmap string prepStmt;
  wire : list Request;
  errlog : list string;
  proxies : nat
}.

Definition set_cache (f : gmap string prepStmt -> gmap string prepStmt) (c : Conn) : Conn :=
  {| Conf := Conf c; prepStmtCache := f (prepStmtCache c); wire := wire c;
     errlog := errlog c; proxies := proxies c |}.

Definition push_wire (r : Request) (c : Conn) : Conn :=
  {| Conf := Conf c; prepStmtCache := prepStmtCache c; wire := wire c ++ [r];
     errlog := errlog c; proxies := proxies c |}.

Definition push_errlog (msg : string) (c : Conn) : Conn :=
  {| Conf := Conf c; prepStmtCache := prepStmtCache c; wire := wire c;
     errlog := errlog c ++ [msg]; proxies := proxies c |}.

Definition count_proxy (c : Conn) : Conn :=
  {| Conf := Conf c; prepStmtCache := prepStmtCache c; wire := wire c;
     errlog := errlog c; proxies := S (proxies c) |}.

(** The world outside the client: the websocket peer, which answers a
    request knowing every request written before it; the fate of the n-th
    local proxy; and the two library or repository routines the source
    files call but do not define ([fmt.Sprintf] applied to caller-supplied
    SQL, and [QuoteIdent]). *)
Record Env : Type := {
  server : list Request -> Request -> Reply;
  bulk : nat -> Attempt;
  Sprintf1 : string -> string -> string;
  QuoteIdent : string -> string
}.

(** ** Outcomes and the state monad *)

Inductive Outcome (S A : Type) : Type :=
| Ok (a : A) (s : S)                 (* normal return *)
| Panic (e : string) (s : S)         (* run-time panic, nothing recovers it *)
| Exit (e : string) (s : S)          (* [log.Fatal]: the process is terminated *)
| Blocked (s : S)                    (* waits for ever on a channel *)
| OutOfFuel (s : S).                 (* iteration budget of the model used up *)

Arguments Ok {S A} a s.
Arguments Panic {S A} e s.
Arguments Exit {S A} e s.
Arguments Blocked {S A} s.
Arguments OutOfFuel {S A} s.

Definition M (S A : Type) : Type := S -> Outcome S A.

#[global] Instance M_ret {S} : MRet (M S) := fun A a s => Ok a s.

#[global] Instance M_bind {S} : MBind (M S) := fun A B f m s =>
  match m s with
  | Ok a s' => f a s'
  | Panic e s' => Panic e s'
  | Exit e s' => Exit e s'
  | Blocked s' => Blocked s'
  | OutOfFuel s' => OutOfFuel s'
  end.

Definition get {S} : M S S := fun s => Ok s s.
Definition modify {S} (f : S -> S) : M S unit := fun s => Ok tt (f s).
Definition panic {S A} (e : string) : M S A := fun s => Panic e s.
Definition exit {S A} (e : string) : M S A := fun s => Exit e s.
Definition blocked {S A} : M S A := fun s => Blocked s.
Definition out_of_fuel {S A} : M S A := fun s => OutOfFuel s.

(** Run a computation on the connection inside a larger state. *)
Definition liftC {X A} (m : M Conn A) : M (Conn * X) A := fun s =>
  match m (fst s) with
  | Ok a c => Ok a (c, snd s)
  | Panic e c => Panic e (c, snd s)
  | Exit e c => Exit e (c, snd s)
  | Blocked c => Blocked (c, snd s)
  | OutOfFuel c => OutOfFuel (c, snd s)
  end.

(** Type assertions [x.(T)] without the [ok] result panic on a mismatch. *)
Definition assertion_failed : string := "interface conversion".

Definition as_float64 {S} (v : option value) : M S Z :=
  match v with Some (VNum n) => mret n | _ => panic assertion_failed end.

Definition as_string {S} (v : option value) : M S string :=
  match v with Some (VStr s) => mret s | _ => panic assertion_failed end.

Definition as_map {S} (v : option value) : M S obj :=
  match v with Some (VObj o) => mret o | _ => panic assertion_failed end.

Definition as_slice {S} (v : option value) : M S (list value) :=
  match v with Some (VArr l) => mret l | _ => panic assertion_failed end.

Definition index_out_of_range : string := "index out of range".

(** ** Session transport and statement engine *)

(** A channel of rows as its consumer sees it: the rows sent so far, in
    order, and whether [close] has been called.  The capacity (1000) only
    throttles the producer and is not part of the model. *)
Record RowChan : Type := {
  sent : list (list value);
  closed : bool
}.

Definition make_RowChan : RowChan := {| sent := []; closed := false |}.

(** Modelled from the spec: [Transpose] is not in the source files.  Given
    N bindings, each an ordered sequence of M values, it produces M ordered
    sequences of N values, one per column; M is the length of the first
    binding and uniform shape is its precondition. *)
Definition Transpose (matrix : list (list value)) : list (list value) :=
  map (fun x => map (fun row => nth x row VNull) matrix)
      (seq 0 (length (hd [] matrix))).

(** [m[key] = v] on an association list read at its first binding. *)
Fixpoint set_key (key : string) (v : value) (m : obj) : obj :=
  match m with
  | [] => [(key, v)]
  | (k, w) :: m' =>
      if String.eqb k key then (k, v) :: m' else (k, w) :: set_key key v m'
  end.

(** The loop [for i := range dataTypes] of [Execute], started at index [i];
    [None] when an index is out of range or a descriptor is not a map. *)
Fixpoint overlay_from (i : nat) (dataTypes defs : list value) : option (list value) :=
  match dataTypes with
  | [] => Some defs
  | dt :: rest =>
      match defs !! i with
      | Some (VObj o) =>
          overlay_from (S i) rest (<[i := VObj (set_key "dataType" dt o)]> defs)
      | _ => None
      end
  end.

Definition numBytes_max : Z := 64 * 1024 * 1024.

Section Engine.

Context (E : Env).

(** Modelled from the spec: [c.error] is not in the source files.  It
    hands the message to the error log unless the session's
    error-suppression flag is set, and returns it as an [error]. *)
Definition Conn_error (msg : string) : M Conn string := fun c =>
  Ok msg (if SuppressError (Conf c) then c else push_errlog msg c).

(** [response["status"] != "ok"] *)
Definition status_not_ok (response : obj) : bool :=
  match index "status" response with
  | Some (VStr s) => negb (String.eqb s "ok")
  | _ => true
  end.

(** The function value [asyncSend] returns: reads exactly one response. *)
Definition receive (i : Incoming) : M Conn (obj * error) :=
  match i with
  | ReadError e =>
      Conn_error ("WebSocket API Error recving: " +:+ e);;
      mret ([], Some e)
  | Response response =>
      if status_not_ok response then
        exception ← as_map (index "exception" response);
        text ← as_string (index "text" exception);
        Conn_error ("Server Error: " +:+ text);;
        mret ([], Some text)
      else if has_key "responseData" response then
        result ← as_map (index "responseData" response);
        mret (result, None)
      else if has_key "attributes" response then
        result ← as_map (index "attributes" response);
        mret (result, None)
      else mret ([], None)
  end.

Definition asyncSend (request : Request)
  : M Conn (option (M Conn (obj * error)) * error) :=
  c ← get;
  modify (push_wire request);;
  match server E (wire c) request with
  | WriteError e =>
      err ← Conn_error ("WebSocket API Error sending: " +:+ e);
      mret (None, Some err)
  | Written i => mret (Some (receive i), None)
  end.

Definition send (request : Request) : M Conn (obj * error) :=
  '(rcv, err) ← asyncSend request;
  match rcv with
  | None => mret ([], err)
  | Some rcv => rcv
  end.

(** Modelled from the spec: [getPrepStmt] is not in the source files.  It
    obtains the cached prepared statement for [sql], or creates it on the
    server under [schema]: the reply carries the server-assigned statement
    handle and the ordered column descriptors.  The new statement enters
    the cache when caching is enabled. *)
Definition getPrepStmt (schema sql : string) : M Conn (prepStmt + string) :=
  c ← get;
  match prepStmtCache c !! sql with
  | Some ps => mret (inl ps)
  | None =>
      '(res, err) ← send (createPrepStmtJSON "createPreparedStatement" schema sql);
      match err with
      | Some e => mret (inr e)
      | None =>
          h ← as_float64 (index "statementHandle" res);
          pd ← as_map (index "parameterData" res);
          cols ← as_slice (index "columns" pd);
          let ps := {| sth := h; columnDefs := cols |} in
          (if CachePrepStmts (Conf c)
           then modify (set_cache (insert sql ps)) else mret tt);;
          mret (inl ps)
      end
  end.

(** Modelled from the spec: [closePrepStmt] is not in the source files.
    It destroys the statement on the server; its outcome is not used. *)
Definition closePrepStmt (h : Z) : M Conn unit :=
  send (closePrepStmtJSON "closePreparedStatement" h);; mret tt.

(** The tail of [Execute]: close the statement when caching is off, then
    [return res, err]. *)
Definition Execute_return (ps : prepStmt) (res : obj) (err : error)
  : M Conn (obj * error) :=
  c ← get;
  (if negb (CachePrepStmts (Conf c)) then closePrepStmt (sth ps) else mret tt);;
  mret (res, err).

(** [Execute(sql, binds, schema, dataTypes, isColumnar)].  The optional
    arguments are given in full; a nil slice is the empty list and an
    absent schema the empty string.  In the recovery block the source
    declares [ps, err := c.getPrepStmt(schema, sql)]: both names are new
    variables of that block, so the assignment [res, err = c.send(execReq)]
    inside it reaches the outer [res] and the inner [err], and the
    statements after the block read the outer [ps] and [err]. *)
Definition Execute (sql : string) (binds : list (list value)) (schema : string)
    (dataTypes : list value) (isColumnar : bool) : M Conn (obj * error) :=
  match binds with
  | [] | [] :: _ => send (executeStmtJSON "execute" schema sql)
  | _ =>
      r ← getPrepStmt schema sql;
      match r with
      | inr e => mret ([], Some e)
      | inl ps =>
          ps ← match dataTypes with
               | [] => mret ps
               | _ =>
                   match overlay_from 0 dataTypes (columnDefs ps) with
                   | None => panic index_out_of_range
                   | Some defs =>
                       (* [ps] points into the cache: the overlay is seen there *)
                       let ps' := {| sth := sth ps; columnDefs := defs |} in
                       modify (set_cache (alter (fun _ => ps') sql));;
                       mret ps'
                   end
               end;
          let binds := if isColumnar then binds else Transpose binds in
          let numCols := length binds in
          numRows ← match binds with
                    | [] => panic index_out_of_range
                    | col :: _ => mret (length col)
                    end;
          let execReq h :=
            execPrepStmtJSON "executePreparedStatement" h numCols numRows
                             (columnDefs ps) binds in
          '(res, err) ← send (execReq (sth ps));
          match err with
          | Some e =>
              if handleNotFound e then
                modify (set_cache (delete sql));;
                r2 ← getPrepStmt schema sql;
                match r2 with
                | inr e2 => mret ([], Some e2)
                | inl ps2 =>
                    '(res2, _) ← send (execReq (sth ps2));
                    Execute_return ps res2 err
                end
              else Execute_return ps res err
          | None => Execute_return ps res err
          end
      end
  end.

(** The columns of a column-major [data] value, each asserted to be a
    slice; [None] when one is not. *)
Fixpoint columns_of (data : list value) : option (list (list value)) :=
  match data with
  | [] => Some []
  | VArr col :: data' =>
      match columns_of data' with
      | Some cols => Some (col :: cols)
      | None => None
      end
  | _ => None
  end.

Definition as_columns {S} (data : list value) : M S (list (list value)) :=
  match columns_of data with
  | Some cols => mret cols
  | None => panic assertion_failed
  end.

(** [ch <- row] for each of the rows [l], in order. *)
Definition push_rows (l : list (list value)) (s : Conn * RowChan) : Conn * RowChan :=
  (fst s, {| sent := sent (snd s) ++ l; closed := closed (snd s) |}).

(** Modelled from the spec: [transposeToChan] is not in the source files.
    It reads the column-major [data] of a response and pushes its rows
    onto the channel in row order. *)
Definition transposeToChan (data : list value) : M (Conn * RowChan) unit :=
  cols ← as_columns data;
  modify (push_rows (Transpose cols)).

Definition close_chan : M (Conn * RowChan) unit :=
  modify (fun s : Conn * RowChan =>
            (fst s, {| sent := sent (snd s); closed := true |})).

(** The pagination loop of [FetchChan]:
    [for i := float64(0); i < rs["numRows"].(float64); { ... }],
    entered with the offset [i].  [fuel] bounds the number of iterations
    of the model; the Go loop has no bound of its own. *)
Fixpoint fetch_loop (fuel : nat) (rs : obj) (rsh i : Z) : M (Conn * RowChan) unit :=
  numRows ← as_float64 (index "numRows" rs);
  if (i <? numRows)%Z then
    match fuel with
    | O => out_of_fuel
    | S fuel' =>
        '(chunk, err) ← liftC (send (fetchJSON "fetch" rsh i numBytes_max));
        match err with
        | Some e => panic e
        | None =>
            n ← as_float64 (index "numRows" chunk);
            data ← as_slice (index "data" chunk);
            transposeToChan data;;
            fetch_loop fuel' rs rsh (i + n)
        end
    end
  else mret tt.

(** The body of the goroutine that [FetchChan] starts. *)
Definition FetchChan_go (fuel : nat) (rs : obj) : M (Conn * RowChan) unit :=
  numRows ← as_float64 (index "numRows" rs);
  (if (numRows =? 0)%Z then mret tt
   else
     match index "resultSetHandle" rs with
     | Some (VNum rsh) =>
         fetch_loop fuel rs rsh 0;;
         liftC (send (closeResultSetJSON "closeResultSet" [rsh]));;
         mret tt
     | _ =>
         data ← as_slice (index "data" rs);
         transposeToChan data
     end);;
  close_chan.

(** Run the goroutine to its end on a fresh channel and hand back the
    channel as the consumer finds it. *)
Definition go_FetchChan (fuel : nat) (rs : obj) : M Conn RowChan := fun c =>
  match FetchChan_go fuel rs (c, make_RowChan) with
  | Ok _ s => Ok (snd s) (fst s)
  | Panic e s => Panic e (fst s)
  | Exit e s => Exit e (fst s)
  | Blocked s => Blocked (fst s)
  | OutOfFuel s => OutOfFuel (fst s)
  end.

(** [FetchChan(sql, binds, schema)]: the channel returned is shown in the
    state it has once the producer goroutine is done. *)
Definition FetchChan (fuel : nat) (sql : string) (binds : list value)
    (schema : string) : M Conn (option RowChan * error) :=
  '(response, err) ← Execute sql [binds] schema [] false;
  match err with
  | Some e => mret (None, Some e)
  | None =>
      numResults ← as_float64 (index "numResults" response);
      if negb (numResults =? 1)%Z then
        mret (None, Some ("Unexpected numResults: " +:+ pretty numResults))
      else
        results ← as_slice (index "results" response);
        results0 ← match results with
                   | [] => panic index_out_of_range
                   | r :: _ => as_map (Some r)
                   end;
        match index "resultSet" results0 with
        | None => mret (None, Some "Missing websocket API resultset")
        | Some rsv =>
            rs ← as_map (Some rsv);
            ch ← go_FetchChan fuel rs;
            mret (Some ch, None)
        end
  end.

(** [FetchSlice]: collect the channel into a slice. *)
Definition FetchSlice (fuel : nat) (sql : string) (binds : list value)
    (schema : string) : M Conn (list (list value) * error) :=
  '(resChan, err) ← FetchChan fuel sql binds schema;
  match resChan with
  | None => mret ([], err)
  | Some ch => if closed ch then mret (sent ch, err) else blocked
  end.

(** [Rollback] and [Commit]: [c.Execute] with the statement and no
    optional argument. *)
Definition Rollback : M Conn error :=
  '(_, err) ← Execute "ROLLBACK" [] "" [] false;
  mret err.

Definition Commit : M Conn error :=
  '(_, err) ← Execute "COMMIT" [] "" [] false;
  mret err.

End Engine.

(** ** Bulk transfer orchestration (bulk-api.go) *)

(** [time.Second], in nanoseconds.  [Timeout] is a [uint32], so the product
    [time.Duration(Timeout) * time.Second] stays inside [int64]. *)
Definition Second : Z := 1000000000.

(** [no_later t o]: the instant [t] is not after [o]. *)
Definition no_later (t : Z) (o : instant) : bool :=
  match o with
  | Some u => (t <=? u)%Z
  | None => true
  end.

(** [done_by o t]: the event at [o] has happened by the instant [t]. *)
Definition done_by (o : instant) (t : Z) : bool :=
  match o with
  | Some u => (u <=? t)%Z
  | None => false
  end.

(** The three-way [select] of [streamExecuteNoRetry] and [streamQuery]:
    [dataErr] becomes ready at [data], [respErr] at [resp], and the channel
    of [time.After] at [timer]; the statement takes a case that is ready
    first. *)
Definition ready_first (data resp : instant) (timer : Z) (k : Case) : bool :=
  match k with
  | DataCase =>
      match data with
      | Some t => (t <=? timer)%Z && no_later t resp
      | None => false
      end
  | RespCase =>
      match resp with
      | Some t => (t <=? timer)%Z && no_later t data
      | None => false
      end
  | TimerCase => no_later timer data && no_later timer resp
  end.

(** When several cases are ready together Go picks one of them at random;
    [pick] is that choice. *)
Definition select (data resp : instant) (timer : Z) (pick : Case) : Case :=
  if ready_first data resp timer pick then pick
  else if ready_first data resp timer DataCase then DataCase
  else if ready_first data resp timer RespCase then RespCase
  else TimerCase.

(** The instant at which the chosen case fires. *)
Definition fired_at (data resp : instant) (timer : Z) (k : Case) : Z :=
  match k with
  | DataCase => default timer data
  | RespCase => default timer resp
  | TimerCase => timer
  end.

Definition make_ByteChan (cap : nat) : ByteChan :=
  {| chunks := []; capacity := cap; is_closed := false |}.

(** [ch <- b]: panics on a closed channel, and with nobody receiving it
    waits for ever once the buffer is full. *)
Definition chan_send {S} (ch : ByteChan) (b : bytes) : M S ByteChan :=
  if is_closed ch then panic "send on closed channel"
  else if (length (chunks ch) <? capacity ch)%nat then
    mret {| chunks := chunks ch ++ [b]; capacity := capacity ch; is_closed := false |}
  else blocked.

Definition chan_close {S} (ch : ByteChan) : M S ByteChan :=
  if is_closed ch then panic "close of closed channel"
  else mret {| chunks := chunks ch; capacity := capacity ch; is_closed := true |}.

(** The exported fields of [Rows] that the orchestration writes. *)
Record Rows : Type := {
  BytesRead : Z;
  Data : ByteChan;
  Error : error
}.

Definition set_Error (e : error) (s : Conn * Rows) : Conn * Rows :=
  (fst s, {| BytesRead := BytesRead (snd s); Data := Data (snd s); Error := e |}).

Definition set_BytesRead (n : Z) (s : Conn * Rows) : Conn * Rows :=
  (fst s, {| BytesRead := n; Data := Data (snd s); Error := Error (snd s) |}).

Definition push_Data (l : list bytes) (s : Conn * Rows) : Conn * Rows :=
  (fst s, {| BytesRead := BytesRead (snd s);
             Data := {| chunks := chunks (Data (snd s)) ++ l;
                        capacity := capacity (Data (snd s));
                        is_closed := is_closed (Data (snd s)) |};
             Error := Error (snd s) |}).

Definition close_Data (s : Conn * Rows) : Conn * Rows :=
  (fst s, {| BytesRead := BytesRead (snd s);
             Data := {| chunks := chunks (Data (snd s));
                        capacity := capacity (Data (snd s));
                        is_closed := true |};
             Error := Error (snd s) |}).

Definition set_SuppressError (b : bool) (s : Conn * Rows) : Conn * Rows :=
  ({| Conf := {| Host := Host (Conf (fst s)); Port := Port (Conf (fst s));
                 Timeout := Timeout (Conf (fst s)); SuppressError := b;
                 CachePrepStmts := CachePrepStmts (Conf (fst s)) |};
      prepStmtCache := prepStmtCache (fst s); wire := wire (fst s);
      errlog := errlog (fst s); proxies := proxies (fst s) |},
   snd s).

(** [Rows.Close].  [running] is the answer of [r.proxy.IsRunning()],
    [stop] the content of the one-slot channel [r.stop], and [rest] what
    the goroutine of [StreamQuery] has still to do, which [r.wg.Wait()]
    waits for.  The result tells whether [true] was put on [r.stop]: the
    send is not blocking and is dropped when the slot is taken. *)
Definition Close (running : bool) (stop : list bool) (rest : M (Conn * Rows) unit)
  : M (Conn * Rows) bool :=
  s ← get;
  let origCfg := SuppressError (Conf (fst s)) in
  signalled ← (if running then
                 modify (set_SuppressError true);;
                 mret (match stop with [] => true | _ => false end)
               else mret false);
  rest;;
  modify (set_SuppressError origCfg);;
  mret signalled.

Section Bulk.

Context (E : Env).

(** Modelled from the spec: the [Logger] is not in the source files.  A
    fatal log call terminates the process. *)
Definition log_Fatal {S A} (msg : string) : M S A := exit msg.

Definition getTableImportSQL (schema table : string) : string :=
  "IMPORT INTO " +:+ QuoteIdent E schema +:+ "." +:+ QuoteIdent E table
    +:+ " FROM CSV AT '%s' FILE 'data.csv'".

Definition getTableExportSQL (schema table : string) : string :=
  "EXPORT " +:+ QuoteIdent E schema +:+ "." +:+ QuoteIdent E table
    +:+ " INTO CSV AT '%s' FILE 'data.csv'".

(** [initProxy]: the attempt's proxy and the pending reply to the SQL
    command, or the error. *)
Definition initProxy (sql : string)
  : M Conn ((Attempt * M Conn (obj * error)) + string) :=
  c ← get;
  let a := bulk E (proxies c) in
  modify count_proxy;;
  match proxy_err a with
  | Some e => Conn_error e;; mret (inr e)
  | None =>
      let proxyURL := "http://" +:+ proxy_host a +:+ ":" +:+ pretty (proxy_port a) in
      let sql := Sprintf1 E sql proxyURL in
      '(response, err) ← asyncSend E (executeStmtJSON "execute" "" sql);
      match response with
      | None =>
          let e := default "" err in
          Conn_error ("Unable to stream sql: " +:+ sql +:+ " " +:+ e);;
          mret (inr e)
      | Some resp => mret (inl (a, resp))
      end
  end.

(** The race shared by both directions.  [resp] is run where its result
    is received from [respErr]; the reply of a command whose result is
    never received plays no part in what the function returns.
    The result is the instant of return and the error. *)
Definition race (xfer : Transfer) (a : Attempt) (resp : M Conn (obj * error))
    (timeout_msg : string) : M Conn (Z * error) :=
  c ← get;
  let timer := (Timeout (Conf c) * Second)%Z in
  let k := select (xfer_at xfer) (resp_at a) timer (tiebreak a) in
  let t := fired_at (xfer_at xfer) (resp_at a) timer k in
  match k with
  | DataCase =>
      match xfer_err xfer with
      | Some e => mret (t, Some e)
      | None =>
          match resp_at a with
          | None => blocked
          | Some t' => '(_, err) ← resp; mret (Z.max t t', err)
          end
      end
  | RespCase =>
      '(_, err) ← resp;
      match err with
      | Some e => mret (t, Some e)
      | None =>
          match xfer_at xfer with
          | None => blocked
          | Some t' => mret (Z.max t t', xfer_err xfer)
          end
      end
  | TimerCase => mret (t, Some timeout_msg)
  end.

(** [streamExecuteNoRetry].  [bytesWritten] is assigned by the writer
    goroutine when [proxy.Write] returns: the caller reads the count if
    that has happened by the instant of return, and 0 otherwise. *)
Definition streamExecuteNoRetry (origSQL : string) (data : ByteChan)
  : M Conn (Z * error) :=
  r ← initProxy origSQL;
  match r with
  | inr e => mret (0%Z, Some e)
  | inl (a, resp) =>
      let w := Write a data in
      '(t, err) ← race w a resp "Timed out doing StreamExecute";
      let bytesWritten := if done_by (xfer_at w) t then xfer_bytes w else 0%Z in
      match err with
      | Some e =>
          mret (bytesWritten,
                Some ("Unable to bulk import data: " +:+ origSQL
                        +:+ String Text.newline e))
      | None => mret (bytesWritten, None)
      end
  end.

(** The loop [for range []int{1, 2}] of [StreamExecute], over the
    iterations that remain; falling out of it reaches [return nil]. *)
Fixpoint StreamExecute_loop (iterations : list Z) (origSQL : string)
    (data : ByteChan) : M Conn error :=
  match iterations with
  | [] => mret None
  | _ :: rest =>
      '(bytesWritten, err) ← streamExecuteNoRetry origSQL data;
      match err with
      | Some e =>
          if retryableError err then
            if (bytesWritten =? 0)%Z then
              Conn_error "Retrying...";;
              StreamExecute_loop rest origSQL data
            else
              Conn_error "Data already sent can't retry...";;
              Conn_error e;;
              mret (Some e)
          else
            Conn_error e;;
            mret (Some e)
      | None => mret None
      end
  end.

Definition StreamExecute (origSQL : string) (data : option ByteChan) : M Conn error :=
  match data with
  | None => log_Fatal "You must pass in a []byte chan to StreamExecute"
  | Some data => StreamExecute_loop [1; 2]%Z origSQL data
  end.

Definition StreamInsert (schema table : string) (data : option ByteChan) : M Conn error :=
  StreamExecute (getTableImportSQL schema table) data.

(** [BulkExecute]; [data] is the content of the buffer, [None] the nil
    pointer. *)
Definition BulkExecute (sql : string) (data : option bytes) : M Conn error :=
  match data with
  | None => log_Fatal "You must pass in a bytes.Buffer pointer to BulkExecute"
  | Some buf =>
      dataChan ← chan_send (make_ByteChan 1) buf;
      dataChan ← chan_close dataChan;
      StreamExecute sql (Some dataChan)
  end.

Definition BulkInsert (schema table : string) (data : option bytes) : M Conn error :=
  BulkExecute (getTableImportSQL schema table) data.

(** [streamQuery], a method of [Rows]. *)
Definition streamQuery (exportSQL : string) : M (Conn * Rows) error :=
  r ← liftC (initProxy exportSQL);
  match r with
  | inr e => mret (Some e)
  | inl (a, resp) =>
      let rd := Read a in
      modify (push_Data (Read_chunks a));;
      '(t, err) ← liftC (race rd a resp "Timed out doing BulkQuery");
      (if done_by (xfer_at rd) t then modify (set_BytesRead (xfer_bytes rd))
       else mret tt);;
      match err with
      | Some e =>
          liftC (Conn_error ("Unable to bulk export data: " +:+ exportSQL
                               +:+ " " +:+ e));;
          mret (Some e)
      | None => mret None
      end
  end.

(** The loop [for i := 0; i <= 2; i++] of the goroutine of [StreamQuery],
    over the values of [i] that remain. *)
Fixpoint StreamQuery_loop (iterations : list Z) (exportSQL : string)
  : M (Conn * Rows) unit :=
  match iterations with
  | [] => mret tt
  | _ :: rest =>
      err ← streamQuery exportSQL;
      modify (set_Error err);;
      if retryableError err then
        liftC (Conn_error "Retrying...");;
        modify (set_Error None);;
        StreamQuery_loop rest exportSQL
      else mret tt
  end.

(** The goroutine of [StreamQuery] with its deferred [close(r.Data)]. *)
Definition StreamQuery_go (exportSQL : string) : M (Conn * Rows) unit :=
  StreamQuery_loop [0; 1; 2]%Z exportSQL;;
  modify close_Data.

Definition new_Rows : Rows :=
  {| BytesRead := 0; Data := make_ByteChan 1; Error := None |}.

(** [StreamQuery] returns at once with a live [Rows]; the model shows the
    object as it is once the goroutine is done, the consumer having
    drained [Data]. *)
Definition StreamQuery (exportSQL : string) : M Conn Rows := fun c =>
  match StreamQuery_go exportSQL (c, new_Rows) with
  | Ok _ s => Ok (snd s) (fst s)
  | Panic e s => Panic e (fst s)
  | Exit e s => Exit e (fst s)
  | Blocked s => Blocked (fst s)
  | OutOfFuel s => OutOfFuel (fst s)
  end.

Definition StreamSelect (schema table : string) : M Conn Rows :=
  StreamQuery (getTableExportSQL schema table).

(** [BulkQuery]: the result is the content of the buffer afterwards and
    the error. *)
Definition BulkQuery (sql : string) (data : option bytes) : M Conn (bytes * error) :=
  match data with
  | None => log_Fatal "You must pass in a bytes.Buffer pointer to BulkQuery"
  | Some buf =>
      rows ← StreamQuery sql;
      if is_closed (Data rows) then
        let buf := fold_left (fun acc b => (acc ++ b)%list) (chunks (Data rows)) buf in
        match Error rows with
        | Some e => mret (buf, Some ("Unable to BulkQuery: " +:+ e))
        | None => mret (buf, None)
        end
      else blocked
  end.

Definition BulkSelect (schema table : string) (data : option bytes)
  : M Conn (bytes * error) :=
  BulkQuery (getTableExportSQL schema table) data.

End Bulk.

(** * Vocabulary of the properties, and example sessions *)

Definition final {S A} (o : Outcome S A) : S :=
  match o with
  | Ok _ s | Panic _ s | Exit _ s | Blocked s | OutOfFuel s => s
  end.

(** [hoare R Q m]: whatever the outcome of [m], the state it ends in is
    [R]-related to the one it started from, and a returned value satisfies
    [Q]. *)
Definition hoare {S A} (R : S -> S -> Prop) (Q : A -> Prop) (m : M S A) : Prop :=
  forall s, R s (final (m s)) /\ match m s with Ok a _ => Q a | _ => True end.

(** [stable R m]: [m] moves the state along [R], whatever its outcome. *)
Definition stable {S A} (R : S -> S -> Prop) (m : M S A) : Prop :=
  hoare R (fun _ => True) m.

(** Relations on connections that hold across a write to the error log. *)
Class LogStable (R : Conn -> Conn -> Prop) : Prop := {
  log_stable_refl :: Reflexive R;
  log_stable_trans :: Transitive R;
  log_stable_push : forall c msg, R c (push_errlog msg c)
}.

(** [attempts n c c']: between [c] and [c'] exactly [n] proxies were started. *)
Definition attempts (n : nat) (c c' : Conn) : Prop :=
  proxies c' = (proxies c + n)%nat.

(** The same relation on the state of the export goroutine. *)
Definition attemptsR (n : nat) (s s' : Conn * Rows) : Prop :=
  attempts n (fst s) (fst s').

(** The two shapes of a well-formed response: an error carrying the
    server's text, and a success carrying response data. *)
Definition error_response (text : string) : obj :=
  [("status", VStr "error"); ("exception", VObj [("text", VStr text)])].

Definition ok_response (data : obj) : obj :=
  [("status", VStr "ok"); ("responseData", VObj data)].

Module Examples.

Definition conf (timeout : Z) : ConnConf :=
  {| Host := "exasol"; Port := 8563; Timeout := timeout;
     SuppressError := false; CachePrepStmts := true |}.

Definition conn (timeout : Z) : Conn :=
  {| Conf := conf timeout; prepStmtCache := ∅; wire := [];
     errlog := []; proxies := 0 |}.

Definition refused : string :=
  "ETL-5105: [http://10.0.0.5:4242/data.csv failed after 0 bytes. [Connection refused]]".

Definition total (ch : ByteChan) : Z :=
  Z.of_nat (length (concat (chunks ch))).

(** A proxy whose transfer ends after [d] seconds and whose SQL command
    is answered after [r] seconds. *)
Definition proxy (d r : Z) (errW : error) (written : ByteChan -> Z)
    (out : list bytes) : Attempt :=
  {| proxy_err := None; proxy_host := "10.0.0.5"; proxy_port := 4242;
     Write := fun ch => {| xfer_at := Some (d * Second)%Z;
                           xfer_bytes := written ch; xfer_err := errW |};
     Read := {| xfer_at := Some (d * Second)%Z;
                xfer_bytes := Z.of_nat (length (concat out)); xfer_err := errW |};
     Read_chunks := out;
     resp_at := Some (r * Second)%Z;
     tiebreak := DataCase |}.

Definition dquote : ascii := Ascii.ascii_of_nat 34.

(** The first [%s] of a format replaced by the argument. *)
Fixpoint fill (format arg : string) : string :=
  match format with
  | EmptyString => EmptyString
  | String a rest =>
      if Text.prefix "%s" format then arg +:+ Text.drop 2 format
      else String a (fill rest arg)
  end.

Definition plain_env (srv : list Request -> Request -> Reply) (b : nat -> Attempt) : Env :=
  {| server := srv; bulk := b;
     Sprintf1 := fill;
     QuoteIdent := fun s => String dquote (s +:+ String dquote EmptyString) |}.

Definition import_sql : string := "IMPORT INTO t FROM CSV AT '%s' FILE 'data.csv'".
Definition export_sql : string := "EXPORT t INTO CSV AT '%s' FILE 'data.csv'".

Definition import_at_proxy : string :=
  "IMPORT INTO t FROM CSV AT 'http://10.0.0.5:4242' FILE 'data.csv'".
Definition export_at_proxy : string :=
  "EXPORT t INTO CSV AT 'http://10.0.0.5:4242' FILE 'data.csv'".

Definition csv : bytes := [Byte.x31; Byte.x2c; Byte.x61; Byte.x0a].

Definition csv_chan : ByteChan :=
  {| chunks := [csv]; capacity := 1; is_closed := true |}.

(** The server refuses the first command and accepts every later one;
    the proxy sees no byte before the refusal. *)
Definition refused_once : Env :=
  plain_env
    (fun hist _ => match hist with
                   | [] => Written (Response (error_response refused))
                   | _ => Written (Response (ok_response []))
                   end)
    (fun _ => proxy 2 1 None total []).

(** The server refuses every command. *)
Definition refused_always : Env :=
  plain_env (fun _ _ => Written (Response (error_response refused)))
            (fun _ => proxy 2 1 None total []).


(** The server rejects the statement. *)
Definition rejected : Env :=
  plain_env (fun _ _ => Written (Response (error_response "syntax error")))
            (fun _ => proxy 2 1 None total []).

(** Transfer and command both succeed, after 5 and 6 seconds. *)
Definition healthy : Env :=
  plain_env (fun _ _ => Written (Response (ok_response [])))
            (fun _ => proxy 5 6 None total [csv]).

(** No local proxy can be started. *)
Definition no_proxy : Env :=
  plain_env (fun _ _ => Written (Response (ok_response [])))
            (fun _ => {| proxy_err := Some "listen tcp 10.0.0.5:0: bind: address already in use";
                         proxy_host := ""; proxy_port := 0;
                         Write := fun _ => {| xfer_at := None; xfer_bytes := 0;
                                              xfer_err := None |};
                         Read := {| xfer_at := None; xfer_bytes := 0; xfer_err := None |};
                         Read_chunks := []; resp_at := None; tiebreak := DataCase |}).

End Examples.

(** The closed channel that holds the single chunk [buf]. *)
Definition single_chunk (buf : bytes) : ByteChan :=
  {| chunks := [buf]; capacity := 1; is_closed := true |}.

(** [BulkQuery] in the words of its specification: run [StreamQuery],
    drain the chunks into the buffer in order, and return an error exactly
    when the [Rows] object carries one. *)
Definition BulkQuery_drained (E : Env) (sql : string) (buf : bytes)
  : M Conn (bytes * error) :=
  rows ← StreamQuery E sql;
  mret ((buf ++ concat (chunks (Data rows)))%list,
        match Error rows with
        | Some e => Some ("Unable to BulkQuery: " +:+ e)
        | None => None
        end).

Module Sessions.

Definition col_def : value :=
  VObj [("name", VStr "ID");
        ("dataType", VObj [("type", VStr "DECIMAL"); ("precision", VNum 18);
                           ("scale", VNum 0)])].

Definition insert_sql : string := "INSERT INTO t VALUES (?)".

Definition inserted : obj :=
  [("numResults", VNum 1);
   ("results", VArr [VObj [("resultType", VStr "rowCount"); ("rowCount", VNum 1)]])].

Definition prepared (h : Z) : obj :=
  [("statementHandle", VNum h);
   ("parameterData", VObj [("numColumns", VNum 1); ("columns", VArr [col_def])])].

(** A server that has dropped statement handle 1: executions under it are
    answered "Statement handle not found", a new preparation yields handle
    2, and executions under handle 2 succeed. *)
Definition dropped_handle : Env :=
  Examples.plain_env
    (fun _ req =>
       match req with
       | createPrepStmtJSON _ _ _ => Written (Response (ok_response (prepared 2)))
       | execPrepStmtJSON _ h _ _ _ _ =>
           if (h =? 2)%Z then Written (Response (ok_response inserted))
           else Written (Response (error_response "Statement handle not found"))
       | _ => Written (Response [("status", VStr "ok")])
       end)
    (fun _ => Examples.proxy 1 1 None Examples.total []).

(** A session that still caches handle 1 for the statement. *)
Definition caching_handle_1 : Conn :=
  {| Conf := Examples.conf 10;
     prepStmtCache := {[ insert_sql := {| sth := 1; columnDefs := [col_def] |} ]};
     wire := []; errlog := []; proxies := 0 |}.

(** A server that forgets the first statement it prepares: the first
    preparation yields handle 1, every later one handle 2, and only
    executions under handle 2 succeed. *)
Definition forgetful : Env :=
  Examples.plain_env
    (fun hist req =>
       match req with
       | createPrepStmtJSON _ _ _ =>
           match hist with
           | [] => Written (Response (ok_response (prepared 1)))
           | _ => Written (Response (ok_response (prepared 2)))
           end
       | execPrepStmtJSON _ h _ _ _ _ =>
           if (h =? 2)%Z then Written (Response (ok_response inserted))
           else Written (Response (error_response "Statement handle not found"))
       | _ => Written (Response [("status", VStr "ok")])
       end)
    (fun _ => Examples.proxy 1 1 None Examples.total []).

(** A new session that does not cache prepared statements. *)
Definition not_caching : Conn :=
  {| Conf := {| Host := "exasol"; Port := 8563; Timeout := 10;
                SuppressError := false; CachePrepStmts := false |};
     prepStmtCache := ∅; wire := []; errlog := []; proxies := 0 |}.

End Sessions.

(** [no_new_fetch c c']: from [c] to [c'] no fetch request was written. *)
Definition no_new_fetch (c c' : Conn) : Prop :=
  List.filter is_fetch (wire c') = List.filter is_fetch (wire c).

(** A session whose query has an empty result set. *)
Module EmptyResult.

Definition select_sql : string := "SELECT id FROM t WHERE 1 = 0".

Definition result_set : obj :=
  [("numColumns", VNum 1); ("numRows", VNum 0);
   ("columns", VArr [Sessions.col_def])].

Definition results0 : obj :=
  [("resultType", VStr "resultSet"); ("resultSet", VObj result_set)].

Definition response : obj :=
  [("numResults", VNum 1); ("results", VArr [VObj results0])].

Definition env : Env :=
  Examples.plain_env (fun _ _ => Written (Response (ok_response response)))
                     (fun _ => Examples.proxy 1 1 None Examples.total []).

End EmptyResult.

(** [fetch_fails E rs rsh i s e s']: the loop entered at offset [i] in
    state [s] reaches, after any number of successful fetches, a fetch
    request whose [send] returns the error [e], in state [s']. *)
Inductive fetch_fails (E : Env) (rs : obj) (rsh : Z)
  : Z -> Conn * RowChan -> string -> Conn * RowChan -> Prop :=
| fetch_fails_now i s numRows res e c' :
    index "numRows" rs = Some (VNum numRows) ->
    i < numRows ->
    send E (fetchJSON "fetch" rsh i numBytes_max) (fst s) = Ok (res, Some e) c' ->
    fetch_fails E rs rsh i s e (c', snd s)
| fetch_fails_later i s numRows chunk n data cols c' e s' :
    index "numRows" rs = Some (VNum numRows) ->
    i < numRows ->
    send E (fetchJSON "fetch" rsh i numBytes_max) (fst s) = Ok (chunk, None) c' ->
    index "numRows" chunk = Some (VNum n) ->
    index "data" chunk = Some (VArr data) ->
    columns_of data = Some cols ->
    fetch_fails E rs rsh (i + n) (push_rows (Transpose cols) (c', snd s)) e s' ->
    fetch_fails E rs rsh i s e s'.

(** The response data of a fetch that returns the rows [sl]: their number
    and their values, column-major. *)
Definition chunk_of (sl : list (list value)) : obj :=
  [("numRows", VNum (Z.of_nat (length sl)));
   ("data", VArr (map VArr (Transpose sl)))].


Definition push_wires (l : list Request) (c : Conn) : Conn :=
  fold_left (fun c r => push_wire r c) l c.

(** The rows a server with page policy [page] returns for a fetch at
    offset [i]: up to [page i] rows from there on. *)
Definition returned (rows : list (list value)) (page : nat -> nat) (i : nat)
  : list (list value) :=
  firstn (page i) (skipn i rows).

(** The offsets of the fetch requests: each one advanced from the one
    before by the number of rows returned there. *)
Fixpoint offsets (rows : list (list value)) (page : nat -> nat)
    (fuel i : nat) : list nat :=
  match fuel with
  | O => []
  | Datatypes.S fuel' =>
      if (i <? length rows)%nat
      then i :: offsets rows page fuel' (i + length (returned rows page i))
      else []
  end.


(** A result set of three rows, served two rows at a time under handle 7. *)
Module Paged.

Definition select_sql : string := "SELECT id, name FROM t".

Definition rows : list (list value) :=
  [[VNum 1; VStr "a"]; [VNum 2; VStr "b"]; [VNum 3; VStr "c"]].

Definition page (_ : nat) : nat := 2.

Definition result_set (numRows : Z) : obj :=
  [("numColumns", VNum 2); ("numRows", VNum numRows); ("resultSetHandle", VNum 7)].

Definition results0 (numRows : Z) : obj :=
  [("resultType", VStr "resultSet"); ("resultSet", VObj (result_set numRows))].

Definition response (numRows : Z) : obj :=
  [("numResults", VNum 1); ("results", VArr [VObj (results0 numRows)])].

Definition answer (numRows : Z) (all : list (list value)) (req : Request) : Reply :=
  match req with
  | fetchJSON _ _ i _ =>
      Written (Response (ok_response (chunk_of (returned all page (Z.to_nat i)))))
  | closeResultSetJSON _ _ => Written (Response [("status", VStr "ok")])
  | _ => Written (Response (ok_response (response numRows)))
  end.

Definition env : Env :=
  Examples.plain_env (fun _ => answer 3 rows)
                     (fun _ => Examples.proxy 1 1 None Examples.total []).


(** A server whose connection breaks at the second fetch. *)
Definition env_broken : Env :=
  Examples.plain_env
    (fun _ req =>
       match req with
       | fetchJSON _ _ 0 _ => answer 3 rows req
       | fetchJSON _ _ _ _ => Written (ReadError "connection reset by peer")
       | _ => answer 3 rows req
       end)
    (fun _ => Examples.proxy 1 1 None Examples.total []).

End Paged.

(** Servers with other answers to a query. *)
Module Results.

(** Two result entries in one response. *)
Definition two_results : Env :=
  Examples.plain_env
    (fun _ _ => Written (Response (ok_response
                  [("numResults", VNum 2);
                   ("results", VArr [VObj (Paged.results0 3); VObj (Paged.results0 3)])])))
    (fun _ => Examples.proxy 1 1 None Examples.total []).

(** A row count and no result set, as for an INSERT. *)
Definition row_count : Env :=
  Examples.plain_env (fun _ _ => Written (Response (ok_response Sessions.inserted)))
                     (fun _ => Examples.proxy 1 1 None Examples.total []).

(** A small result set returned inline, column-major, without a handle. *)
Definition inline_set : obj :=
  [("numColumns", VNum 2); ("numRows", VNum 3);
   ("data", VArr (map VArr (Transpose Paged.rows)))].

Definition inline : Env :=
  Examples.plain_env
    (fun _ _ => Written (Response (ok_response
                  [("numResults", VNum 1);
                   ("results", VArr [VObj [("resultType", VStr "resultSet");
                                           ("resultSet", VObj inline_set)]])])))
    (fun _ => Examples.proxy 1 1 None Examples.total []).

(** A server that answers every fetch with no rows. *)
Definition no_rows : obj := [("numRows", VNum 0); ("data", VArr [])].

Definition stalling : Env :=
  Examples.plain_env
    (fun _ req =>
       match req with
       | fetchJSON _ _ _ _ => Written (Response (ok_response no_rows))
       | _ => Paged.answer 3 Paged.rows req
       end)
    (fun _ => Examples.proxy 1 1 None Examples.total []).

End Results.

(** ** Frames *)

(** [only_logs c c']: from [c] to [c'] nothing but the error log changed. *)
Definition only_logs (c c' : Conn) : Prop :=
  Conf c' = Conf c /\ prepStmtCache c' = prepStmtCache c /\
  wire c' = wire c /\ proxies c' = proxies c.

(** [keeps_session c c']: configuration and statement cache are the same. *)
Definition keeps_session (c c' : Conn) : Prop :=
  Conf c' = Conf c /\ prepStmtCache c' = prepStmtCache c.

(** A relation on connections, on the state of the export goroutine. *)
Definition onConn (R : Conn -> Conn -> Prop) (s s' : Conn * Rows) : Prop :=
  R (fst s) (fst s').

(** Servers that answer out of protocol. *)
Module Malformed.

(** Success with [responseData: null]. *)
Definition null_data : Env :=
  Examples.plain_env
    (fun _ _ => Written (Response [("status", VStr "ok"); ("responseData", VNull)]))
    (fun _ => Examples.proxy 1 1 None Examples.total []).

(** An error status without the exception object. *)
Definition bare_error : Env :=
  Examples.plain_env (fun _ _ => Written (Response [("status", VStr "error")]))
                     (fun _ => Examples.proxy 1 1 None Examples.total []).

(** The socket is gone. *)
Definition down : Env :=
  Examples.plain_env (fun _ _ => WriteError "broken pipe")
                     (fun _ => Examples.proxy 1 1 None Examples.total []).

End Malformed.

(** ** What the two regular expressions denote *)

Fixpoint has_newline (s : string) : bool :=
  match s with
  | EmptyString => false
  | String a s' => Ascii.eqb a Text.newline || has_newline s'
  end.

(** [s] has a match of the literal [p]. *)
Definition has_substring (p s : string) : Prop :=
  exists pre post, s = pre +:+ p +:+ post.

(** [s] has a match of [l1.+l2]: the two literals with one or more
    characters between them, none of them a line feed. *)
Definition has_match (l1 l2 s : string) : Prop :=
  exists pre mid post,
    s = pre +:+ l1 +:+ mid +:+ l2 +:+ post /\
    mid <> EmptyString /\ has_newline mid = false.

(** * Properties *)

Example retryable_ex1 :
  retryableError (Some "ETL-5105: http://10.0.0.1:4242 failed after 0 bytes. [Connection refused]") = true.
Proof. reflexivity. Qed.

Example retryable_ex2 :
  retryableError (Some "failed after 0 bytesConnection refused") = false.
Proof. reflexivity. Qed.

Example retryable_ex3 : retryableError None = false.
Proof. reflexivity. Qed.

Example retryable_ex4 :
  retryableError (Some ("failed after 0 bytes" +:+ String Text.newline "Connection refused")) = false.
Proof. reflexivity. Qed.

Example retryable_ex5 :
  retryableError (Some "failed after 10 bytes. [Connection refused]") = false.
Proof. reflexivity. Qed.

(** ** Reasoning about outcomes *)

Lemma bind_Ok {S A B} (m : M S A) (f : A -> M S B) s a s' :
  m s = Ok a s' -> (m ≫= f) s = f a s'.
Proof. intros H. unfold mbind, M_bind. now rewrite H. Qed.

Lemma hoare_ret {S A} (R : S -> S -> Prop) `{!Reflexive R} (Q : A -> Prop) (a : A) :
  Q a -> hoare R Q (mret a).
Proof. intros H s. split; [apply reflexivity | exact H]. Qed.

Lemma hoare_bind {S A B} (R : S -> S -> Prop) `{!Transitive R}
    (Q : A -> Prop) (Q' : B -> Prop) (m : M S A) (f : A -> M S B) :
  hoare R Q m -> (forall a, Q a -> hoare R Q' (f a)) -> hoare R Q' (m ≫= f).
Proof.
  intros Hm Hf s. destruct (Hm s) as [HR HQ].
  unfold mbind, M_bind. destruct (m s) as [a s'| | | |]; simpl in *; auto.
  destruct (Hf a HQ s') as [HR' HQ']. split; [etransitivity; eauto | exact HQ'].
Qed.

Lemma hoare_weaken {S A} (R : S -> S -> Prop) (Q Q' : A -> Prop) (m : M S A) :
  hoare R Q m -> (forall a, Q a -> Q' a) -> hoare R Q' m.
Proof.
  intros Hm HQ s. destruct (Hm s) as [HR H]. split; [exact HR|].
  destruct (m s); auto.
Qed.

Lemma hoare_get {S} (R : S -> S -> Prop) `{!Reflexive R} :
  hoare R (fun _ => True) (@get S).
Proof. intros s. split; [apply reflexivity | exact I]. Qed.

Lemma hoare_modify {S} (R : S -> S -> Prop) (f : S -> S) :
  (forall s, R s (f s)) -> hoare R (fun _ => True) (modify f).
Proof. intros H s. split; [apply H | exact I]. Qed.

Lemma hoare_panic {S A} (R : S -> S -> Prop) `{!Reflexive R} (Q : A -> Prop) e :
  hoare R Q (@panic S A e).
Proof. intros s. split; [apply reflexivity | exact I]. Qed.

Lemma hoare_blocked {S A} (R : S -> S -> Prop) `{!Reflexive R} (Q : A -> Prop) :
  hoare R Q (@blocked S A).
Proof. intros s. split; [apply reflexivity | exact I]. Qed.

Lemma hoare_liftC {X A} (R : Conn -> Conn -> Prop) (Q : A -> Prop) (m : M Conn A) :
  hoare R Q m ->
  hoare (fun s s' : Conn * X => R (fst s) (fst s')) Q (liftC m).
Proof.
  intros Hm s. destruct (Hm (fst s)) as [HR HQ]. unfold liftC.
  destruct (m (fst s)); simpl in *; auto.
Qed.

Lemma liftC_Ok {X A} (m : M Conn A) (s : Conn * X) a c' :
  m (fst s) = Ok a c' -> liftC m s = Ok a (c', snd s).
Proof. intros H. unfold liftC. now rewrite H. Qed.

Lemma hoare_seq {S A B} (R1 R2 R : S -> S -> Prop)
    (Q : A -> Prop) (Q' : B -> Prop) (m : M S A) (f : A -> M S B) :
  (forall x y, R1 x y -> R x y) ->
  (forall x y z, R1 x y -> R2 y z -> R x z) ->
  hoare R1 Q m -> (forall a, Q a -> hoare R2 Q' (f a)) -> hoare R Q' (m ≫= f).
Proof.
  intros H1 H12 Hm Hf s. destruct (Hm s) as [HR HQ].
  unfold mbind, M_bind. destruct (m s) as [a s'| | | |]; simpl in *; auto.
  destruct (Hf a HQ s') as [HR' HQ']. split; [eauto | exact HQ'].
Qed.

Section Stable.

Context {S : Type} (R : S -> S -> Prop) `{!Reflexive R} `{!Transitive R}.

Lemma stable_ret {A} (a : A) : stable R (mret a).
Proof. now apply hoare_ret. Qed.

Lemma stable_bind {A B} (m : M S A) (f : A -> M S B) :
  stable R m -> (forall a, stable R (f a)) -> stable R (m ≫= f).
Proof. intros Hm Hf. exact (hoare_bind R _ _ m f Hm (fun a _ => Hf a)). Qed.

Lemma stable_hoare_bind {A B} (Q : A -> Prop) (m : M S A) (f : A -> M S B) :
  hoare R Q m -> (forall a, Q a -> stable R (f a)) -> stable R (m ≫= f).
Proof. intros Hm Hf. exact (hoare_bind R _ _ m f Hm Hf). Qed.

Lemma stable_get : stable R (@get S).
Proof. now apply hoare_get. Qed.

Lemma stable_panic {A} e : stable R (@panic S A e).
Proof. now apply hoare_panic. Qed.

Lemma stable_blocked {A} : stable R (@blocked S A).
Proof. now apply hoare_blocked. Qed.

Lemma stable_out_of_fuel {A} : stable R (@out_of_fuel S A).
Proof. intros s. split; [apply reflexivity | exact I]. Qed.

Lemma stable_exit {A} e : stable R (@exit S A e).
Proof. intros s. split; [apply reflexivity | exact I]. Qed.

Lemma stable_as_float64 v : stable R (@as_float64 S v).
Proof. destruct v as [[]|]; simpl; (apply stable_ret || apply stable_panic). Qed.

Lemma stable_as_string v : stable R (@as_string S v).
Proof. destruct v as [[]|]; simpl; (apply stable_ret || apply stable_panic). Qed.

Lemma stable_as_map v : stable R (@as_map S v).
Proof. destruct v as [[]|]; simpl; (apply stable_ret || apply stable_panic). Qed.

Lemma stable_as_slice v : stable R (@as_slice S v).
Proof. destruct v as [[]|]; simpl; (apply stable_ret || apply stable_panic). Qed.

End Stable.

(** One step of a stability proof: split a bind, close a leaf, or take a
    case of the program. *)
Ltac stable_step :=
  lazymatch goal with
  | |- stable _ (mret _) => apply stable_ret; try tc_solve
  | |- stable _ (panic _) => apply stable_panic; try tc_solve
  | |- stable _ blocked => apply stable_blocked; try tc_solve
  | |- stable _ out_of_fuel => apply stable_out_of_fuel; try tc_solve
  | |- stable _ (exit _) => apply stable_exit; try tc_solve
  | |- stable _ get => apply stable_get; try tc_solve
  | |- stable _ (as_float64 _) => apply stable_as_float64; try tc_solve
  | |- stable _ (as_string _) => apply stable_as_string; try tc_solve
  | |- stable _ (as_map _) => apply stable_as_map; try tc_solve
  | |- stable _ (as_slice _) => apply stable_as_slice; try tc_solve
  | |- stable _ (_ ≫= _) => apply stable_bind; [try tc_solve | | intros ?; cbv beta]
  | |- stable _ (match ?x with _ => _ end) => destruct x
  | |- stable _ (if ?x then _ else _) => destruct x
  | |- stable _ _ => progress cbv beta zeta
  | |- hoare ?R (fun _ => True) ?m => change (stable R m)
  end.

Section ConnStable.

Context (E : Env) (R : Conn -> Conn -> Prop) `{!LogStable R}.

Lemma Conn_error_stable msg : stable R (Conn_error msg).
Proof.
  intros c. unfold Conn_error. simpl. split; [|exact I].
  destruct (SuppressError (Conf c)); [apply reflexivity | apply log_stable_push].
Qed.

Lemma receive_stable i : stable R (receive i).
Proof.
  destruct i as [e|response]; simpl;
    repeat first [apply Conn_error_stable | stable_step].
Qed.

(** Requests the relation lets through. *)
Context (allowed : Request -> Prop)
        (R_push : forall c r, allowed r -> R c (push_wire r c)).

Lemma asyncSend_stable request :
  allowed request ->
  hoare R (fun r => forall rcv, fst r = Some rcv -> stable R rcv) (asyncSend E request).
Proof.
  intros Hreq c. unfold asyncSend, mbind, M_bind, get, modify. simpl.
  destruct (server E (wire c) request) as [e|i]; simpl.
  - pose proof (Conn_error_stable ("WebSocket API Error sending: " +:+ e)
                  (push_wire request c)) as [H _].
    unfold Conn_error in *. simpl in *.
    split; [etransitivity; [apply R_push, Hreq | exact H] | ].
    intros rcv Hrcv. discriminate.
  - split; [apply R_push, Hreq |].
    intros rcv [= <-]. apply receive_stable.
Qed.

Lemma send_stable request : allowed request -> stable R (send E request).
Proof.
  intros Hreq. unfold send.
  eapply stable_hoare_bind; [tc_solve | apply asyncSend_stable, Hreq |].
  intros [[rcv|] err] H; simpl in *.
  - now apply H.
  - apply stable_ret; tc_solve.
Qed.

End ConnStable.

(** ** The number of attempts

    Every attempt starts one local proxy, so the ghost counter [proxies]
    counts attempts. *)

Lemma attempts_add n m x y z : attempts n x y -> attempts m y z -> attempts (n + m) x z.
Proof. unfold attempts. lia. Qed.

#[local] Instance attempts_0_LogStable : LogStable (attempts 0).
Proof.
  split.
  - intros c. unfold attempts. lia.
  - intros x y z. unfold attempts. lia.
  - intros c msg. unfold attempts. simpl. lia.
Qed.

Lemma attempts_0_push c r : attempts 0 c (push_wire r c).
Proof. unfold attempts. simpl. lia. Qed.

#[local] Instance attemptsR_0_refl : Reflexive (attemptsR 0).
Proof. intros s. unfold attemptsR, attempts. lia. Qed.

#[local] Instance attemptsR_0_trans : Transitive (attemptsR 0).
Proof. intros x y z. unfold attemptsR, attempts. lia. Qed.

Section BulkFacts.

Context (E : Env).

Lemma race_attempts xfer a resp msg :
  stable (attempts 0) resp -> stable (attempts 0) (race xfer a resp msg).
Proof.
  intros Hresp. unfold race.
  repeat first [exact Hresp | stable_step].
Qed.

Lemma initProxy_attempts sql :
  hoare (attempts 1)
        (fun r => match r with
                  | inl (_, resp) => stable (attempts 0) resp
                  | inr _ => True
                  end)
        (initProxy E sql).
Proof.
  intros c. unfold initProxy.
  rewrite (bind_Ok get _ c c c eq_refl).
  rewrite (bind_Ok (modify count_proxy) _ c tt (count_proxy c) eq_refl).
  assert (H1 : attempts 1 c (count_proxy c)) by (unfold attempts; simpl; lia).
  set (a := bulk E (proxies c)).
  enough (H : hoare (attempts 0)
                (fun r => match r with
                          | inl (_, resp) => stable (attempts 0) resp
                          | inr _ => True
                          end)
                (match proxy_err a with
                 | Some e => Conn_error e;; mret (inr e)
                 | None =>
                     let proxyURL := "http://" +:+ proxy_host a +:+ ":" +:+ pretty (proxy_port a) in
                     let sql0 := Sprintf1 E sql proxyURL in
                     '(response, err) ← asyncSend E (executeStmtJSON "execute" "" sql0);
                     match response with
                     | None =>
                         let e := default "" err in
                         Conn_error ("Unable to stream sql: " +:+ sql0 +:+ " " +:+ e);;
                         mret (inr e)
                     | Some resp => mret (inl (a, resp))
                     end
                 end)).
  { destruct (H (count_proxy c)) as [HR HQ]. split; [|exact HQ].
    exact (attempts_add 1 0 _ _ _ H1 HR). }
  destruct (proxy_err a) as [e|].
  - eapply hoare_bind; [tc_solve | apply Conn_error_stable; tc_solve |].
    intros _ _. now apply hoare_ret; [tc_solve|].
  - cbv zeta.
    eapply hoare_bind; [tc_solve | |].
    { apply (asyncSend_stable E (attempts 0) (fun _ => True)); auto.
      intros; apply attempts_0_push. }
    intros [[rcv|] err] H; simpl in *.
    + apply hoare_ret; [tc_solve|]. now apply H.
    + eapply hoare_bind; [tc_solve | apply Conn_error_stable; tc_solve |].
      intros _ _. now apply hoare_ret; [tc_solve|].
Qed.

(** One call of [streamExecuteNoRetry] is one attempt, whatever its outcome. *)
Lemma streamExecuteNoRetry_attempts sql data :
  stable (attempts 1) (streamExecuteNoRetry E sql data).
Proof.
  unfold streamExecuteNoRetry.
  eapply (hoare_seq (attempts 1) (attempts 0) (attempts 1));
    [auto | | apply initProxy_attempts |].
  { intros x y z H1 H2. exact (attempts_add 1 0 _ _ _ H1 H2). }
  intros [[a resp]|e] H.
  - apply stable_bind; [tc_solve | now apply race_attempts |].
    intros [t [e|]]; repeat stable_step.
  - repeat stable_step.
Qed.

Lemma streamExecuteNoRetry_proxies sql data c :
  proxies (final (streamExecuteNoRetry E sql data c)) = Datatypes.S (proxies c).
Proof.
  destruct (streamExecuteNoRetry_attempts sql data c) as [H _].
  unfold attempts in H. lia.
Qed.

End BulkFacts.

Section ImportRetry.

Context (E : Env).

Lemma Conn_error_run msg c :
  exists c', Conn_error msg c = Ok msg c' /\ proxies c' = proxies c /\
             Conf c' = Conf c /\ wire c' = wire c.
Proof.
  unfold Conn_error. destruct (SuppressError (Conf c)); eexists; simpl; eauto.
Qed.



End ImportRetry.


Section ExportRetry.

Context (E : Env).




(** Once the goroutine is done the channel of chunks is closed. *)
Lemma StreamQuery_closed sql c rows c' :
  StreamQuery E sql c = Ok rows c' -> is_closed (Data rows) = true.
Proof.
  unfold StreamQuery, StreamQuery_go, mbind, M_bind.
  destruct (StreamQuery_loop E [0; 1; 2] sql (c, new_Rows)); simpl; try discriminate.
  intros [= <- _]. reflexivity.
Qed.

End ExportRetry.


(** ** Runs of the retry loops *)

Example import_refused_once :
  StreamExecute Examples.refused_once Examples.import_sql (Some Examples.csv_chan)
                (Examples.conn 10)
  = Ok None
       {| Conf := Examples.conf 10; prepStmtCache := ∅;
          wire := [executeStmtJSON "execute" "" Examples.import_at_proxy;
                   executeStmtJSON "execute" "" Examples.import_at_proxy];
          errlog := ["Server Error: " +:+ Examples.refused; "Retrying..."];
          proxies := 2 |}.
Proof. vm_compute. reflexivity. Qed.

(** Two refusals in a row leave the loop through its end: [StreamExecute]
    returns nil although neither attempt succeeded. *)
Example import_refused_always :
  exists c', StreamExecute Examples.refused_always Examples.import_sql
               (Some Examples.csv_chan) (Examples.conn 10) = Ok None c' /\
             proxies c' = 2%nat.
Proof. eexists. split; vm_compute; reflexivity. Qed.



(** C3. When every attempt of an export is refused, the third and last
    attempt fails like the two before it, yet the loop clears the error
    before it ends: [StreamQuery] yields a closed channel and a [Rows]
    object whose [Error] is nil. *)
Theorem StreamQuery_drops_last_refusal :
  StreamQuery Examples.refused_always Examples.export_sql (Examples.conn 10)
  = Ok {| BytesRead := 0;
          Data := {| chunks := []; capacity := 1; is_closed := true |};
          Error := None |}
       {| Conf := Examples.conf 10; prepStmtCache := ∅;
          wire := [executeStmtJSON "execute" "" Examples.export_at_proxy;
                   executeStmtJSON "execute" "" Examples.export_at_proxy;
                   executeStmtJSON "execute" "" Examples.export_at_proxy];
          errlog := ["Server Error: " +:+ Examples.refused;
                     "Unable to bulk export data: " +:+ Examples.export_sql +:+ " "
                       +:+ Examples.refused;
                     "Retrying...";
                     "Server Error: " +:+ Examples.refused;
                     "Unable to bulk export data: " +:+ Examples.export_sql +:+ " "
                       +:+ Examples.refused;
                     "Retrying...";
                     "Server Error: " +:+ Examples.refused;
                     "Unable to bulk export data: " +:+ Examples.export_sql +:+ " "
                       +:+ Examples.refused;
                     "Retrying..."];
          proxies := 3 |}.
Proof. vm_compute. reflexivity. Qed.

(** The same holds of [BulkQuery], which reads its error off the object. *)
Example BulkQuery_drops_last_refusal :
  exists c', BulkQuery Examples.refused_always Examples.export_sql (Some [])
               (Examples.conn 10) = Ok ([], None) c' /\ proxies c' = 3%nat.
Proof. eexists. split; vm_compute; reflexivity. Qed.

(** ** The timeout *)

(** With a timer of zero length and transfers that take time, the timer
    case is the only one ready first. *)
Lemma select_zero_timer data resp pick :
  (forall t, data = Some t -> 0 < t) ->
  (forall t, resp = Some t -> 0 < t) ->
  select data resp 0 pick = TimerCase.
Proof.
  intros Hd Hr.
  assert (HD : ready_first data resp 0 DataCase = false).
  { simpl. destruct data as [t|]; [|reflexivity].
    specialize (Hd t eq_refl). destruct (Z.leb_spec t 0); [lia | reflexivity]. }
  assert (HR : ready_first data resp 0 RespCase = false).
  { simpl. destruct resp as [t|]; [|reflexivity].
    specialize (Hr t eq_refl). destruct (Z.leb_spec t 0); [lia | reflexivity]. }
  unfold select. destruct pick; rewrite ?HD, ?HR; try reflexivity.
  now destruct (ready_first data resp 0 TimerCase).
Qed.

(** A timer that runs out before either side is done wins the race. *)
Lemma select_timer_first data resp timer pick :
  (forall t, data = Some t -> timer < t) ->
  (forall t, resp = Some t -> timer < t) ->
  select data resp timer pick = TimerCase.
Proof.
  intros Hd Hr.
  assert (HD : ready_first data resp timer DataCase = false).
  { simpl. destruct data as [t|]; [|reflexivity].
    specialize (Hd t eq_refl). destruct (Z.leb_spec t timer); [lia | reflexivity]. }
  assert (HR : ready_first data resp timer RespCase = false).
  { simpl. destruct resp as [t|]; [|reflexivity].
    specialize (Hr t eq_refl). destruct (Z.leb_spec t timer); [lia | reflexivity]. }
  unfold select. destruct pick; rewrite ?HD, ?HR; try reflexivity.
  now destruct (ready_first data resp timer TimerCase).
Qed.

(** Whenever the timer case is taken the race yields its dedicated error,
    whatever the transfer and the command would have reported. *)
Lemma race_timeout (E : Env) xfer a resp msg c :
  select (xfer_at xfer) (resp_at a) (Timeout (Conf c) * Second) (tiebreak a) = TimerCase ->
  race xfer a resp msg c = Ok (Timeout (Conf c) * Second, Some msg) c.
Proof.
  intros H. unfold race. rewrite (bind_Ok get _ c c c eq_refl).
  cbv zeta. rewrite H. reflexivity.
Qed.

(** With the same healthy server and proxy, a timeout of ten seconds lets
    the import through. *)
Example import_healthy_timeout_10 :
  exists c', streamExecuteNoRetry Examples.healthy Examples.import_sql Examples.csv_chan
               (Examples.conn 10) = Ok (4, None) c'.
Proof. eexists. vm_compute. reflexivity. Qed.

(** C4. A configured timeout of 0 does not switch the timeout off:
    [time.After] is then given a zero duration, its channel is ready at
    once, and a transfer and a command that both succeed (after 5 and 6
    seconds) lose the race.  The import attempt returns the timeout error,
    and the export stream records it on its [Rows] object. *)
Theorem bulk_timeout_zero_times_out :
  (exists c',
      streamExecuteNoRetry Examples.healthy Examples.import_sql Examples.csv_chan
                           (Examples.conn 0)
      = Ok (0, Some ("Unable to bulk import data: " +:+ Examples.import_sql
                       +:+ String Text.newline "Timed out doing StreamExecute")) c') /\
  (exists c',
      StreamExecute Examples.healthy Examples.import_sql (Some Examples.csv_chan)
                    (Examples.conn 0)
      = Ok (Some ("Unable to bulk import data: " +:+ Examples.import_sql
                    +:+ String Text.newline "Timed out doing StreamExecute")) c') /\
  (exists rows c',
      StreamQuery Examples.healthy Examples.export_sql (Examples.conn 0) = Ok rows c' /\
      Error rows = Some "Timed out doing BulkQuery").
Proof.
  split; [|split].
  - eexists. vm_compute. reflexivity.
  - eexists. vm_compute. reflexivity.
  - eexists _, _. split; vm_compute; reflexivity.
Qed.

(** ** Buffer variants *)

Lemma fold_left_app_concat (l : list bytes) (buf : bytes) :
  fold_left (fun acc b => (acc ++ b)%list) l buf = (buf ++ concat l)%list.
Proof.
  revert buf. induction l as [|b l IH]; intros buf; simpl.
  - now rewrite app_nil_r.
  - rewrite IH. now rewrite <- app_assoc.
Qed.

(** C6. For a buffer that is not nil, [BulkExecute] is [StreamExecute] on
    the closed channel holding the single chunk [buf.Bytes()], and
    [BulkQuery] is [StreamQuery] with its chunks drained into the buffer in
    order, with an error exactly when the [Rows] object carries one. *)
Theorem Bulk_is_single_chunk_Stream (E : Env) (sql : string) (buf : bytes) (c : Conn) :
  BulkExecute E sql (Some buf) c = StreamExecute E sql (Some (single_chunk buf)) c /\
  BulkQuery E sql (Some buf) c = BulkQuery_drained E sql buf c.
Proof.
  split; [reflexivity|].
  unfold BulkQuery, BulkQuery_drained, mbind, M_bind.
  destruct (StreamQuery E sql c) as [rows c'| | | |] eqn:Hq; try reflexivity.
  rewrite (StreamQuery_closed E sql c rows c' Hq), fold_left_app_concat.
  now destruct (Error rows).
Qed.

(** The table-targeted variants only build the SQL: with a buffer that is
    not nil, [BulkInsert] is [StreamExecute] on the generated IMPORT
    statement and the single chunk. *)
Lemma BulkInsert_is_StreamExecute (E : Env) schema table buf c :
  BulkInsert E schema table (Some buf) c
  = StreamExecute E (getTableImportSQL E schema table) (Some (single_chunk buf)) c.
Proof. reflexivity. Qed.

Example getTableImportSQL_quoted :
  getTableImportSQL (Examples.plain_env (fun _ _ => WriteError "down")
                                        (fun _ => Examples.proxy 1 1 None Examples.total []))
                    "s" "t"
  = String.concat (String Examples.dquote EmptyString)
      ["IMPORT INTO "; "s"; "."; "t"; " FROM CSV AT '%s' FILE 'data.csv'"].
Proof. reflexivity. Qed.

(** C9. A nil buffer given to [BulkExecute] or [BulkQuery], and a nil
    channel given to [StreamExecute], end in the fatal log call: the
    process is terminated and no error value is returned. *)
Theorem nil_argument_is_fatal (E : Env) (sql : string) (c : Conn) :
  BulkExecute E sql None c
    = Exit "You must pass in a bytes.Buffer pointer to BulkExecute" c /\
  BulkQuery E sql None c
    = Exit "You must pass in a bytes.Buffer pointer to BulkQuery" c /\
  StreamExecute E sql None c
    = Exit "You must pass in a []byte chan to StreamExecute" c.
Proof. repeat split. Qed.

(** ** Statement engine *)

(** C2. A cached statement handle that the server has dropped: [Execute]
    evicts it, prepares the statement again and executes once more under
    the new handle, and that execution succeeds.  [Execute] returns the
    response of the retried execution together with the error of the
    first one: the caller does not observe success. *)
Theorem Execute_recovery_returns_first_error :
  Execute Sessions.dropped_handle Sessions.insert_sql [[VNum 7]] "" [] false
          Sessions.caching_handle_1
  = Ok (Sessions.inserted, Some "Statement handle not found")
       {| Conf := Examples.conf 10;
          prepStmtCache :=
            {[ Sessions.insert_sql := {| sth := 2; columnDefs := [Sessions.col_def] |} ]};
          wire := [execPrepStmtJSON "executePreparedStatement" 1 1 1
                                    [Sessions.col_def] [[VNum 7]];
                   createPrepStmtJSON "createPreparedStatement" "" Sessions.insert_sql;
                   execPrepStmtJSON "executePreparedStatement" 2 1 1
                                    [Sessions.col_def] [[VNum 7]]];
          errlog := ["Server Error: Statement handle not found"];
          proxies := 0 |}.
Proof. vm_compute. reflexivity. Qed.

(** The same on every input: when the first execution fails with "handle
    not found", the statement is prepared again and the second execution
    succeeds, [Execute] ends with the first error. *)
Lemma Execute_recovery_error (E : Env) sql b bs schema (isColumnar : bool) c ps c0
    col cols res e c1 ps2 c2 res2 c3 :
  b <> [] ->
  getPrepStmt E schema sql c = Ok (inl ps) c0 ->
  (if isColumnar then b :: bs else Transpose (b :: bs)) = col :: cols ->
  send E (execPrepStmtJSON "executePreparedStatement" (sth ps)
            (length (col :: cols)) (length col) (columnDefs ps) (col :: cols)) c0
    = Ok (res, Some e) c1 ->
  handleNotFound e = true ->
  getPrepStmt E schema sql (set_cache (delete sql) c1) = Ok (inl ps2) c2 ->
  send E (execPrepStmtJSON "executePreparedStatement" (sth ps2)
            (length (col :: cols)) (length col) (columnDefs ps) (col :: cols)) c2
    = Ok (res2, None) c3 ->
  Execute E sql (b :: bs) schema [] isColumnar c
    = Execute_return E ps res2 (Some e) c3.
Proof.
  intros Hb Hps Hbinds Hsend He Hps2 Hsend2.
  unfold Execute. destruct b as [|v b']; [contradiction|].
  rewrite (bind_Ok _ _ _ _ _ Hps).
  rewrite (bind_Ok (mret ps) _ c0 ps c0 eq_refl).
  cbv zeta. rewrite Hbinds.
  rewrite (bind_Ok (mret (length col)) _ c0 (length col) c0 eq_refl).
  rewrite (bind_Ok _ _ _ _ _ Hsend). cbv beta iota. rewrite He.
  rewrite (bind_Ok (modify (set_cache (delete sql))) _ c1 tt _ eq_refl).
  rewrite (bind_Ok _ _ _ _ _ Hps2).
  now rewrite (bind_Ok _ _ _ _ _ Hsend2).
Qed.

Lemma Execute_return_error (E : Env) ps res err c r c' :
  Execute_return E ps res err c = Ok r c' -> r = (res, err).
Proof.
  unfold Execute_return, mbind, M_bind, get, mret, M_ret.
  destruct (negb (CachePrepStmts (Conf c))).
  - destruct (closePrepStmt E (sth ps) c); try discriminate. now intros [= <- _].
  - now intros [= <- _].
Qed.

(** ** Fetch requests on the wire *)

#[local] Instance no_new_fetch_LogStable : LogStable no_new_fetch.
Proof.
  split.
  - intros c. reflexivity.
  - intros x y z Hxy Hyz. unfold no_new_fetch in *. congruence.
  - intros c msg. reflexivity.
Qed.

Lemma no_new_fetch_push c r : is_fetch r = false -> no_new_fetch c (push_wire r c).
Proof.
  intros H. unfold no_new_fetch. simpl.
  rewrite List.filter_app. simpl. rewrite H. apply app_nil_r.
Qed.

Lemma no_new_fetch_cache f c : no_new_fetch c (set_cache f c).
Proof. reflexivity. Qed.

Section NoFetch.

Context (E : Env).

Lemma send_no_fetch request :
  is_fetch request = false -> stable no_new_fetch (send E request).
Proof.
  intros H.
  apply (send_stable E no_new_fetch (fun r => is_fetch r = false)); auto.
  intros c r Hr. now apply no_new_fetch_push.
Qed.

Ltac no_fetch_step :=
  first [ apply send_no_fetch; reflexivity
        | apply hoare_modify; intros ?; apply no_new_fetch_cache
        | stable_step ].

Lemma getPrepStmt_no_fetch schema sql : stable no_new_fetch (getPrepStmt E schema sql).
Proof. unfold getPrepStmt. repeat no_fetch_step. Qed.

Lemma closePrepStmt_no_fetch h : stable no_new_fetch (closePrepStmt E h).
Proof. unfold closePrepStmt. repeat no_fetch_step. Qed.

Lemma Execute_return_no_fetch ps res err :
  stable no_new_fetch (Execute_return E ps res err).
Proof.
  unfold Execute_return. repeat first [apply closePrepStmt_no_fetch | no_fetch_step].
Qed.

(** [Execute] writes no fetch request. *)
Lemma Execute_no_fetch sql binds schema dataTypes isColumnar :
  stable no_new_fetch (Execute E sql binds schema dataTypes isColumnar).
Proof.
  unfold Execute.
  repeat first [ apply getPrepStmt_no_fetch | apply Execute_return_no_fetch
               | no_fetch_step ].
Qed.

End NoFetch.

(** C8. A result set that advertises zero rows: [FetchChan] yields a
    channel on which no row was sent and which is closed, the goroutine
    writes nothing to the socket, and the requests of the execution before
    it include no fetch. *)
Theorem FetchChan_zero_rows (E : Env) (fuel : nat) (sql : string)
    (binds : list value) (schema : string) (c c1 : Conn)
    (response results0 rs : obj) (rest : list value) :
  Execute E sql [binds] schema [] false c = Ok (response, None) c1 ->
  index "numResults" response = Some (VNum 1) ->
  index "results" response = Some (VArr (VObj results0 :: rest)) ->
  index "resultSet" results0 = Some (VObj rs) ->
  index "numRows" rs = Some (VNum 0) ->
  FetchChan E fuel sql binds schema c
    = Ok (Some {| sent := []; closed := true |}, None) c1 /\
  List.filter is_fetch (wire c1) = List.filter is_fetch (wire c).
Proof.
  intros Hexec HnumResults Hresults HresultSet HnumRows. split.
  - unfold FetchChan, mbind, M_bind. rewrite Hexec. cbv beta iota.
    rewrite HnumResults. simpl. rewrite Hresults. simpl.
    rewrite HresultSet. simpl.
    unfold go_FetchChan, FetchChan_go, mbind, M_bind.
    rewrite HnumRows. reflexivity.
  - destruct (Execute_no_fetch E sql [binds] schema [] false c) as [H _].
    rewrite Hexec in H. exact H.
Qed.

Lemma FetchChan_zero_rows_witness :
  FetchChan EmptyResult.env 0 EmptyResult.select_sql [] "" (Examples.conn 10)
    = Ok (Some {| sent := []; closed := true |}, None)
         (push_wire (executeStmtJSON "execute" "" EmptyResult.select_sql) (Examples.conn 10)) /\
  List.filter is_fetch
    (wire (push_wire (executeStmtJSON "execute" "" EmptyResult.select_sql) (Examples.conn 10)))
  = List.filter is_fetch (wire (Examples.conn 10)).
Proof.
  apply (FetchChan_zero_rows EmptyResult.env 0 EmptyResult.select_sql [] ""
           (Examples.conn 10) _ EmptyResult.response EmptyResult.results0
           EmptyResult.result_set []); reflexivity.
Defined.

(** ** Errors in the pagination loop *)

Lemma fetch_fails_loop (E : Env) rs rsh i s e s' :
  fetch_fails E rs rsh i s e s' ->
  closed (snd s') = closed (snd s) /\
  exists n, forall fuel, (n <= fuel)%nat -> fetch_loop E fuel rs rsh i s = Panic e s'.
Proof.
  induction 1 as [i s numRows res e c' Hnum Hlt Hsend
                 |i s numRows chunk n data cols c' e s' Hnum Hlt Hsend Hn Hdata Hcols _ IH].
  - split; [reflexivity|]. exists 1%nat. intros [|fuel] Hfuel; [lia|].
    simpl. unfold mbind, M_bind. rewrite Hnum. simpl.
    apply Z.ltb_lt in Hlt. rewrite Hlt.
    unfold liftC. now rewrite Hsend.
  - destruct IH as [Hclosed [m Hm]]. split; [exact Hclosed|].
    exists (Datatypes.S m). intros [|fuel] Hfuel; [lia|].
    simpl. unfold mbind, M_bind. rewrite Hnum. simpl.
    apply Z.ltb_lt in Hlt. rewrite Hlt.
    unfold liftC. rewrite Hsend. simpl.
    rewrite Hn, Hdata. simpl.
    unfold transposeToChan, as_columns, mbind, M_bind. rewrite Hcols. simpl.
    apply Hm. lia.
Qed.

(** C10. When a fetch request of the pagination loop returns an error,
    whether the first or a later one, the producer goroutine panics with
    that error: the channel is not closed and [FetchChan] hands no error
    value to its caller. *)
Theorem FetchChan_fetch_error_panics (E : Env) (rs : obj) (rsh numRows : Z)
    (c : Conn) (e : string) (s' : Conn * RowChan) :
  index "numRows" rs = Some (VNum numRows) ->
  numRows <> 0 ->
  index "resultSetHandle" rs = Some (VNum rsh) ->
  fetch_fails E rs rsh 0 (c, make_RowChan) e s' ->
  closed (snd s') = false /\
  exists n, forall fuel, (n <= fuel)%nat ->
    FetchChan_go E fuel rs (c, make_RowChan) = Panic e s' /\
    go_FetchChan E fuel rs c = Panic e (fst s').
Proof.
  intros Hnum Hnz Hrsh Hfails.
  destruct (fetch_fails_loop E rs rsh 0 _ e s' Hfails) as [Hclosed [n Hn]].
  split; [exact Hclosed|]. exists n. intros fuel Hfuel.
  assert (Hgo : FetchChan_go E fuel rs (c, make_RowChan) = Panic e s').
  { unfold FetchChan_go, mbind, M_bind. rewrite Hnum. simpl.
    destruct (Z.eqb_spec numRows 0) as [->|_]; [contradiction|].
    rewrite Hrsh. now rewrite (Hn fuel Hfuel). }
  split; [exact Hgo|]. unfold go_FetchChan. now rewrite Hgo.
Qed.

(** ** Pagination *)

Lemma map_nth_seq {A} (l : list A) (d : A) :
  map (fun x => nth x l d) (seq 0 (length l)) = l.
Proof.
  induction l as [|a l IH]; simpl; [reflexivity|].
  f_equal. rewrite <- seq_shift, map_map. exact IH.
Qed.

(** Transposing twice gives back a matrix of uniform, positive shape. *)
Lemma Transpose_involutive (m : list (list value)) (w : nat) :
  m <> [] -> (0 < w)%nat -> Forall (fun row => length row = w) m ->
  Transpose (Transpose m) = m.
Proof.
  intros Hm Hw Hall.
  assert (Hhd : length (hd [] m) = w).
  { destruct m as [|r m']; [contradiction|]. now inversion Hall. }
  unfold Transpose at 1.
  assert (Hlen : length (hd [] (Transpose m)) = length m).
  { unfold Transpose. rewrite Hhd. destruct w as [|w']; [lia|].
    simpl. now rewrite length_map. }
  rewrite Hlen.
  transitivity (map (fun y => nth y m []) (seq 0 (length m)));
    [|apply map_nth_seq].
  apply map_ext_in. intros y Hy. apply in_seq in Hy.
  unfold Transpose. rewrite Hhd, map_map.
  assert (Hrow : length (nth y m []) = w).
  { rewrite List.Forall_forall in Hall. apply Hall, nth_In. lia. }
  transitivity (map (fun x => nth x (nth y m []) VNull) (seq 0 (length (nth y m []))));
    [|apply map_nth_seq].
  rewrite Hrow.
  apply map_ext. intros x.
  rewrite (nth_indep _ VNull ((fun row : list value => nth x row VNull) []))
    by (rewrite length_map; lia).
  apply (map_nth (fun row : list value => nth x row VNull) m [] y).
Qed.

Lemma columns_of_map_VArr (cols : list (list value)) :
  columns_of (map VArr cols) = Some cols.
Proof. induction cols as [|col cols IH]; simpl; [reflexivity | now rewrite IH]. Qed.


(** A request answered with a success response that carries data. *)
Lemma send_ok_data (E : Env) request c d :
  server E (wire c) request = Written (Response (ok_response d)) ->
  send E request c = Ok (d, None) (push_wire request c).
Proof.
  intros H. unfold send, asyncSend, mbind, M_bind, get, modify. simpl.
  rewrite H. reflexivity.
Qed.


Lemma returned_length rows page i :
  length (returned rows page i) = Nat.min (page i) (length rows - i).
Proof. unfold returned. now rewrite length_firstn, length_skipn. Qed.




Example numBytes_max_is_64_MiB : numBytes_max = 67108864.
Proof. reflexivity. Qed.




Example FetchChan_paged :
  FetchChan Paged.env 3 Paged.select_sql [] "" (Examples.conn 10)
  = Ok (Some {| sent := Paged.rows; closed := true |}, None)
       {| Conf := Examples.conf 10; prepStmtCache := ∅;
          wire := [executeStmtJSON "execute" "" Paged.select_sql;
                   fetchJSON "fetch" 7 0 67108864;
                   fetchJSON "fetch" 7 2 67108864;
                   closeResultSetJSON "closeResultSet" [7]];
          errlog := []; proxies := 0 |}.
Proof. vm_compute. reflexivity. Qed.



Lemma FetchChan_fetch_error_panics_witness :
  exists s',
    fetch_fails Paged.env_broken (Paged.result_set 3) 7 0
                (Examples.conn 10, make_RowChan) "connection reset by peer" s' /\
    closed (snd s') = false /\
    sent (snd s') = [[VNum 1; VStr "a"]; [VNum 2; VStr "b"]] /\
    exists n, forall fuel, (n <= fuel)%nat ->
      FetchChan_go Paged.env_broken fuel (Paged.result_set 3)
                   (Examples.conn 10, make_RowChan)
        = Panic "connection reset by peer" s' /\
      go_FetchChan Paged.env_broken fuel (Paged.result_set 3) (Examples.conn 10)
        = Panic "connection reset by peer" (fst s').
Proof.
  exists (push_errlog "WebSocket API Error recving: connection reset by peer"
            (push_wire (fetchJSON "fetch" 7 2 numBytes_max)
               (push_wire (fetchJSON "fetch" 7 0 numBytes_max) (Examples.conn 10))),
          {| sent := [[VNum 1; VStr "a"]; [VNum 2; VStr "b"]]; closed := false |}).
  assert (Hf : fetch_fails Paged.env_broken (Paged.result_set 3) 7 0
                 (Examples.conn 10, make_RowChan) "connection reset by peer"
                 (push_errlog "WebSocket API Error recving: connection reset by peer"
                    (push_wire (fetchJSON "fetch" 7 2 numBytes_max)
                       (push_wire (fetchJSON "fetch" 7 0 numBytes_max)
                                  (Examples.conn 10))),
                  {| sent := [[VNum 1; VStr "a"]; [VNum 2; VStr "b"]];
                     closed := false |})).
  { eapply fetch_fails_later with (numRows := 3) (n := 2)
        (cols := [[VNum 1; VNum 2]; [VStr "a"; VStr "b"]]);
      [reflexivity | lia | vm_compute; reflexivity | reflexivity | reflexivity
      | reflexivity |].
    eapply (fetch_fails_now Paged.env_broken (Paged.result_set 3) 7 (0 + 2)
              (_, {| sent := [[VNum 1; VStr "a"]; [VNum 2; VStr "b"]];
                     closed := false |}) 3);
      [reflexivity | simpl; lia | vm_compute; reflexivity]. }
  split; [exact Hf|].
  assert (Hnz : (3 : Z) <> 0) by lia.
  destruct (FetchChan_fetch_error_panics Paged.env_broken (Paged.result_set 3) 7 3
              (Examples.conn 10) "connection reset by peer" _
              eq_refl Hnz eq_refl Hf)
    as [Hc Hn].
  split; [exact Hc|]. split; [reflexivity | exact Hn].
Defined.


(** ** The last iteration of the retry loops *)

(** On its last iteration the import loop retries nothing, and a refusal
    with zero bytes written falls through to [return nil]. *)
Lemma StreamExecute_loop_last_refusal (E : Env) i sql data c e c1 :
  streamExecuteNoRetry E sql data c = Ok (0, Some e) c1 ->
  retryableError (Some e) = true ->
  StreamExecute_loop E [i] sql data c = (Conn_error "Retrying...";; mret None) c1.
Proof.
  intros Hrun Hyes. simpl. rewrite (bind_Ok _ _ _ _ _ Hrun). simpl in *.
  now rewrite Hyes.
Qed.

(** On its last iteration the export loop clears the error it has just
    stored and ends. *)
Lemma StreamQuery_loop_last_refusal (E : Env) i sql s err s1 :
  streamQuery E sql s = Ok err s1 ->
  retryableError err = true ->
  exists s2, StreamQuery_loop E [i] sql s = Ok tt s2 /\ Error (snd s2) = None.
Proof.
  intros Hrun Hyes. simpl. rewrite (bind_Ok _ _ _ _ _ Hrun).
  unfold mbind, M_bind, modify, liftC. rewrite Hyes.
  destruct (Conn_error_run "Retrying..." (fst (set_Error err s1))) as (c2 & Hc2 & _).
  rewrite Hc2. simpl. eexists. split; reflexivity.
Qed.

(** With a timeout of 0 and a proxy whose transfer and command take time,
    every import attempt ends in the timeout error. *)
Lemma streamExecuteNoRetry_zero_timeout (E : Env) sql data c a resp c1 :
  initProxy E sql c = Ok (inl (a, resp)) c1 ->
  Timeout (Conf c1) = 0 ->
  (forall t, xfer_at (Write a data) = Some t -> 0 < t) ->
  (forall t, resp_at a = Some t -> 0 < t) ->
  streamExecuteNoRetry E sql data c
  = Ok (0, Some ("Unable to bulk import data: " +:+ sql
                   +:+ String Text.newline "Timed out doing StreamExecute")) c1.
Proof.
  intros Hinit Hzero Hd Hr. unfold streamExecuteNoRetry.
  rewrite (bind_Ok _ _ _ _ _ Hinit). cbv beta iota zeta.
  assert (Hsel : select (xfer_at (Write a data)) (resp_at a)
                        (Timeout (Conf c1) * Second) (tiebreak a) = TimerCase).
  { rewrite Hzero. simpl. now apply select_zero_timer. }
  rewrite (bind_Ok _ _ _ _ _ (race_timeout E _ _ resp _ c1 Hsel)).
  cbv beta iota. rewrite Hzero. change (0 * Second) with 0.
  destruct (xfer_at (Write a data)) as [t|] eqn:Ht; simpl; [|reflexivity].
  specialize (Hd t eq_refl). destruct (Z.leb_spec t 0); [lia | reflexivity].
Qed.

(** ** A fixed page cap *)

(** With a page cap of [C] rows, the loop issues ⌈R/C⌉ fetch requests. *)
Lemma offsets_fixed_cap_length (rows : list (list value)) (C : nat) :
  (0 < C)%nat ->
  forall fuel i,
    (i <= length rows)%nat -> (length rows - i <= fuel)%nat ->
    length (offsets rows (fun _ => C) fuel i)
    = ((length rows - i + C - 1) / C)%nat.
Proof.
  intros HC. induction fuel as [|fuel IH]; intros i Hi Hfuel.
  - simpl. replace (length rows - i + C - 1)%nat with (C - 1)%nat by lia.
    symmetry. apply Nat.div_small. lia.
  - simpl. destruct (Nat.ltb_spec i (length rows)) as [Hlt|Hge].
    + pose proof (returned_length rows (fun _ => C) i) as Hlen. simpl in Hlen.
      simpl. rewrite IH by lia. rewrite Hlen.
      destruct (Nat.le_gt_cases C (length rows - i)) as [Hbig|Hsmall].
      * rewrite Nat.min_l by lia.
        replace (length rows - i + C - 1)%nat
          with ((length rows - (i + C) + C - 1) + 1 * C)%nat by lia.
        rewrite Nat.div_add by lia. lia.
      * rewrite Nat.min_r by lia.
        replace (length rows - (i + (length rows - i)) + C - 1)%nat
          with (C - 1)%nat by lia.
        replace (length rows - i + C - 1)%nat
          with ((length rows - i - 1) + 1 * C)%nat by lia.
        rewrite Nat.div_add by lia.
        rewrite (Nat.div_small (C - 1)) by lia.
        rewrite (Nat.div_small (length rows - i - 1)) by lia. reflexivity.
    + simpl. replace (length rows - i + C - 1)%nat with (C - 1)%nat by lia.
      symmetry. apply Nat.div_small. lia.
Qed.

Example offsets_paged :
  offsets Paged.rows Paged.page (length Paged.rows) 0 = [0; 2]%nat.
Proof. reflexivity. Qed.

(** ** The matchers against the regular expressions *)

Lemma append_cons_s (x : ascii) (a b : string) :
  String x a +:+ b = String x (a +:+ b).
Proof. reflexivity. Qed.

Lemma append_nil_l_s (b : string) : EmptyString +:+ b = b.
Proof. reflexivity. Qed.

Lemma append_assoc_s (a b c : string) : (a +:+ b) +:+ c = a +:+ (b +:+ c).
Proof.
  induction a as [|x a IH]; [reflexivity|].
  rewrite !append_cons_s. now f_equal.
Qed.

Lemma prefix_iff (p s : string) :
  Text.prefix p s = true <-> exists t, s = p +:+ t.
Proof.
  revert s. induction p as [|a p IH]; intros s.
  - split; [intros _; now exists s | reflexivity].
  - destruct s as [|b s]; simpl.
    + split; [discriminate | intros [t Ht]; discriminate].
    + destruct (Ascii.eqb_spec a b) as [->|Hne].
      * rewrite IH. split; intros [t Ht]; exists t;
          rewrite append_cons_s in *; congruence.
      * split; [discriminate | intros [t Ht]].
        rewrite append_cons_s in Ht. congruence.
Qed.

Lemma prefix_append (p t : string) : Text.prefix p (p +:+ t) = true.
Proof. apply prefix_iff. now exists t. Qed.

Lemma drop_length_append (p t : string) :
  Text.drop (String.length p) (p +:+ t) = t.
Proof.
  induction p as [|a p IH]; [now destruct t|].
  rewrite append_cons_s. exact IH.
Qed.

Lemma contains_unfold (p s : string) :
  Text.contains p s
  = Text.prefix p s
    || match s with EmptyString => false | String _ s' => Text.contains p s' end.
Proof. now destruct s. Qed.

Lemma contains_iff (p s : string) :
  Text.contains p s = true <-> has_substring p s.
Proof.
  split.
  - induction s as [|a s IH]; rewrite contains_unfold, orb_true_iff; intros [H|H].
    + apply prefix_iff in H as [t Ht]. now exists EmptyString, t.
    + discriminate.
    + apply prefix_iff in H as [t Ht]. now exists EmptyString, t.
    + destruct (IH H) as (pre & post & ->). now exists (String a pre), post.
  - intros (pre & post & ->). induction pre as [|a pre IH].
    + rewrite append_nil_l_s, contains_unfold, prefix_append. reflexivity.
    + rewrite append_cons_s, contains_unfold, IH. apply orb_true_r.
Qed.

Lemma dot_plus_then_iff (lit s : string) :
  Text.dot_plus_then lit s = true <->
  exists mid post, s = mid +:+ lit +:+ post /\
                   mid <> EmptyString /\ has_newline mid = false.
Proof.
  split.
  - induction s as [|a s IH]; simpl; [discriminate|].
    destruct (Ascii.eqb a Text.newline) eqn:Ha; [discriminate|].
    rewrite orb_true_iff. intros [H|H].
    + apply prefix_iff in H as [t ->].
      exists (String a EmptyString), t. simpl. rewrite Ha. repeat split. discriminate.
    + destruct (IH H) as (mid & post & -> & _ & Hnl).
      exists (String a mid), post. simpl. rewrite Ha, Hnl. repeat split. discriminate.
  - intros (mid & post & -> & Hmid & Hnl). induction mid as [|a mid IH]; [contradiction|].
    simpl in Hnl. apply orb_false_iff in Hnl as [Ha Hnl].
    rewrite append_cons_s. simpl. rewrite Ha.
    destruct mid as [|b mid].
    + now rewrite append_nil_l_s, prefix_append.
    + rewrite IH; [apply orb_true_r | discriminate | exact Hnl].
Qed.

Lemma lit_dot_plus_lit_unfold (l1 l2 s : string) :
  Text.lit_dot_plus_lit l1 l2 s
  = Text.prefix l1 s && Text.dot_plus_then l2 (Text.drop (String.length l1) s)
    || match s with
       | EmptyString => false
       | String _ s' => Text.lit_dot_plus_lit l1 l2 s'
       end.
Proof. now destruct s. Qed.

Lemma match_here_iff (l1 l2 s : string) :
  Text.prefix l1 s && Text.dot_plus_then l2 (Text.drop (String.length l1) s) = true
  <-> exists mid post, s = l1 +:+ mid +:+ l2 +:+ post /\
                       mid <> EmptyString /\ has_newline mid = false.
Proof.
  rewrite andb_true_iff, prefix_iff. split.
  - intros [[t ->] H]. rewrite drop_length_append in H.
    apply dot_plus_then_iff in H as (mid & post & -> & Hm & Hnl). eauto.
  - intros (mid & post & -> & Hm & Hnl). split; [eauto|].
    rewrite drop_length_append. apply dot_plus_then_iff. eauto.
Qed.

Lemma lit_dot_plus_lit_iff (l1 l2 s : string) :
  Text.lit_dot_plus_lit l1 l2 s = true <-> has_match l1 l2 s.
Proof.
  split.
  - induction s as [|a s IH]; rewrite lit_dot_plus_lit_unfold, orb_true_iff;
      intros [H|H].
    + apply match_here_iff in H as (mid & post & H & Hm & Hnl).
      now exists EmptyString, mid, post.
    + discriminate.
    + apply match_here_iff in H as (mid & post & H & Hm & Hnl).
      now exists EmptyString, mid, post.
    + destruct (IH H) as (pre & mid & post & -> & Hm & Hnl).
      now exists (String a pre), mid, post.
  - intros (pre & mid & post & -> & Hm & Hnl). induction pre as [|a pre IH].
    + rewrite append_nil_l_s, lit_dot_plus_lit_unfold.
      assert (H : Text.prefix l1 (l1 +:+ mid +:+ l2 +:+ post)
                  && Text.dot_plus_then l2
                       (Text.drop (String.length l1) (l1 +:+ mid +:+ l2 +:+ post)) = true)
        by (apply match_here_iff; eauto).
      now rewrite H.
    + rewrite append_cons_s, lit_dot_plus_lit_unfold, IH. apply orb_true_r.
Qed.

(** X1. [retryableError] holds of an error exactly when it is not nil and its
    message has a match of the regular expression
    [failed after 0 bytes.+Connection refused]. *)
Theorem retryableError_iff (err : error) :
  retryableError err = true <->
  exists msg, err = Some msg /\
              has_match "failed after 0 bytes" "Connection refused" msg.
Proof.
  destruct err as [msg|]; simpl.
  - rewrite lit_dot_plus_lit_iff. split; [eauto | now intros (m & [= <-] & H)].
  - split; [discriminate | intros (m & H & _); discriminate].
Qed.

(** X2. The test of [Execute] holds of a message exactly when
    "Statement handle not found" occurs in it. *)
Theorem handleNotFound_iff (msg : string) :
  handleNotFound msg = true <-> has_substring "Statement handle not found" msg.
Proof. apply contains_iff. Qed.

(** A literal without line feed cannot reach across one. *)
Lemma prefix_before_newline (l s1 s2 : string) :
  has_newline l = false ->
  l <> EmptyString ->
  Text.prefix l (s1 +:+ String Text.newline s2) = Text.prefix l s1.
Proof.
  revert s1. induction l as [|a l IH]; intros s1 Hnl Hl; [contradiction|].
  simpl in Hnl. apply orb_false_iff in Hnl as [Ha Hnl].
  destruct s1 as [|b s1].
  - rewrite append_nil_l_s. simpl. now rewrite Ha.
  - rewrite append_cons_s. simpl. destruct (Ascii.eqb a b); [|reflexivity].
    destruct l as [|a' l]; [reflexivity|]. apply IH; [exact Hnl | discriminate].
Qed.

Lemma dot_plus_then_before_newline (l t s2 : string) :
  has_newline l = false ->
  l <> EmptyString ->
  Text.dot_plus_then l (t +:+ String Text.newline s2) = Text.dot_plus_then l t.
Proof.
  intros Hnl Hl. induction t as [|a t IH].
  - rewrite append_nil_l_s. reflexivity.
  - rewrite append_cons_s. simpl. destruct (Ascii.eqb a Text.newline); [reflexivity|].
    now rewrite IH, prefix_before_newline.
Qed.

(** A match of [l1.+l2] lies on one line. *)
Lemma lit_dot_plus_lit_lines (l1 l2 s1 s2 : string) :
  has_newline l1 = false -> l1 <> EmptyString ->
  has_newline l2 = false -> l2 <> EmptyString ->
  Text.lit_dot_plus_lit l1 l2 (s1 +:+ String Text.newline s2)
  = Text.lit_dot_plus_lit l1 l2 s1 || Text.lit_dot_plus_lit l1 l2 s2.
Proof.
  intros H1 N1 H2 N2.
  assert (Hhere : forall s,
             Text.prefix l1 (s +:+ String Text.newline s2)
             && Text.dot_plus_then l2
                  (Text.drop (String.length l1) (s +:+ String Text.newline s2))
             = Text.prefix l1 s
               && Text.dot_plus_then l2 (Text.drop (String.length l1) s)).
  { intros s. rewrite prefix_before_newline by assumption.
    destruct (Text.prefix l1 s) eqn:Hp; [|reflexivity]. simpl.
    apply prefix_iff in Hp as [t ->].
    rewrite append_assoc_s, !drop_length_append.
    now apply dot_plus_then_before_newline. }
  induction s1 as [|a s1 IH].
  - rewrite (lit_dot_plus_lit_unfold l1 l2 (EmptyString +:+ _)), Hhere.
    rewrite (lit_dot_plus_lit_unfold l1 l2 EmptyString).
    rewrite append_nil_l_s, orb_false_r. reflexivity.
  - rewrite (lit_dot_plus_lit_unfold l1 l2 (String a s1 +:+ _)), Hhere.
    rewrite (lit_dot_plus_lit_unfold l1 l2 (String a s1)).
    rewrite append_cons_s, IH. now rewrite orb_assoc.
Qed.

(** No match starts in a text in which the first literal's first
    character does not occur. *)
Lemma lit_dot_plus_lit_skip (l1 l2 : string) (a : ascii) (s : string) :
  Text.prefix l1 (String a s) = false ->
  Text.lit_dot_plus_lit l1 l2 (String a s) = Text.lit_dot_plus_lit l1 l2 s.
Proof. intros H. rewrite lit_dot_plus_lit_unfold, H. reflexivity. Qed.

(** X3. [streamExecuteNoRetry] wraps the error of the race as
    ["Unable to bulk import data: " sql "\n" err] before [StreamExecute]
    classifies it: the wrapped error is retryable exactly when the error
    of the race or the SQL text itself has a match of the signature. *)
Theorem import_error_retryable (sql e : string) :
  retryableError (Some ("Unable to bulk import data: " +:+ sql
                          +:+ String Text.newline e))
  = retryableError (Some sql) || retryableError (Some e).
Proof.
  unfold retryableError.
  rewrite <- (lit_dot_plus_lit_lines "failed after 0 bytes" "Connection refused" sql e)
    by (reflexivity || discriminate).
  repeat (rewrite append_cons_s; rewrite lit_dot_plus_lit_skip by reflexivity).
  reflexivity.
Qed.

(** ** One request, one response *)

#[local] Instance only_logs_LogStable : LogStable only_logs.
Proof.
  split.
  - intros c. unfold only_logs. repeat split.
  - intros x y z (H1 & H2 & H3 & H4) (K1 & K2 & K3 & K4). unfold only_logs.
    repeat split; congruence.
  - intros c msg. unfold only_logs. repeat split.
Qed.

Lemma send_frame (E : Env) (request : Request) (c : Conn) :
  wire (final (send E request c)) = (wire c ++ [request])%list /\
  Conf (final (send E request c)) = Conf c /\
  prepStmtCache (final (send E request c)) = prepStmtCache c /\
  proxies (final (send E request c)) = proxies c.
Proof.
  unfold send, asyncSend, mbind, M_bind, get, modify. simpl.
  destruct (server E (wire c) request) as [e|i]; simpl.
  - destruct (SuppressError (Conf c)); repeat split.
  - destruct (receive_stable only_logs i (push_wire request c))
      as [(H1 & H2 & H3 & H4) _].
    destruct (receive i (push_wire request c)); simpl in *; repeat split; congruence.
Qed.

Lemma status_ok_iff (resp : obj) :
  status_not_ok resp = false <-> index "status" resp = Some (VStr "ok").
Proof.
  unfold status_not_ok. destruct (index "status" resp) as [[| | |s| |]|];
    try (split; [discriminate | congruence]).
  destruct (String.eqb_spec s "ok") as [->|Hne]; simpl.
  - split; reflexivity.
  - split; [discriminate | congruence].
Qed.

Lemma send_result (E : Env) (request : Request) (c : Conn) res err c' :
  send E request c = Ok (res, err) c' ->
  (err = None <->
   exists resp, server E (wire c) request = Written (Response resp) /\
                index "status" resp = Some (VStr "ok")) /\
  (err <> None -> res = []).
Proof.
  unfold send, asyncSend, mbind, M_bind, get, modify. simpl.
  destruct (server E (wire c) request) as [e|[e|resp]]; simpl.
  - unfold Conn_error. intros [= <- <- _]. split; [|reflexivity].
    split; [discriminate | intros (r & Hr & _); discriminate].
  - unfold Conn_error, mbind, M_bind. simpl. intros [= <- <- _]. split; [|reflexivity].
    split; [discriminate | intros (r & Hr & _); discriminate].
  - destruct (status_not_ok resp) eqn:Hst.
    + assert (Hno : index "status" resp <> Some (VStr "ok")).
      { intros H. apply status_ok_iff in H. congruence. }
      unfold mbind, M_bind, as_map, as_string, Conn_error.
      destruct (index "exception" resp) as [[| | | | |ex]|]; simpl; try discriminate.
      destruct (index "text" ex) as [[| | |t| |]|]; simpl; try discriminate.
      intros [= <- <- _]. split; [|reflexivity].
      split; [discriminate | intros (r & [= <-] & Hr); contradiction].
    + apply status_ok_iff in Hst.
      assert (Hyes : exists r, Written (Response resp) = Written (Response r) /\
                               index "status" r = Some (VStr "ok")) by eauto.
      destruct (has_key "responseData" resp).
      { unfold mbind, M_bind, as_map.
        destruct (index "responseData" resp) as [[| | | | |o]|]; simpl; try discriminate.
        intros [= <- <- _]. split; [tauto | congruence]. }
      destruct (has_key "attributes" resp).
      { unfold mbind, M_bind, as_map.
        destruct (index "attributes" resp) as [[| | | | |o]|]; simpl; try discriminate.
        intros [= <- <- _]. split; [tauto | congruence]. }
      simpl. intros [= <- <- _]. split; [tauto | congruence].
Qed.

(** X4. [send] hands exactly one request to the socket, whatever the peer
    does and however the call ends, and leaves the configuration, the
    statement cache and the proxies alone. *)
Theorem send_writes_one_request (E : Env) (request : Request) (c : Conn) :
  wire (final (send E request c)) = (wire c ++ [request])%list /\
  Conf (final (send E request c)) = Conf c /\
  prepStmtCache (final (send E request c)) = prepStmtCache c /\
  proxies (final (send E request c)) = proxies c.
Proof. apply send_frame. Qed.

(** X5. When [send] returns, its error is nil exactly when the peer answered
    with a response whose status is "ok"; with an error the result map is
    nil. *)
Theorem send_error_iff (E : Env) (request : Request) (c : Conn) res err c' :
  send E request c = Ok (res, err) c' ->
  (err = None <->
   exists resp, server E (wire c) request = Written (Response resp) /\
                index "status" resp = Some (VStr "ok")) /\
  (err <> None -> res = []).
Proof. apply send_result. Qed.

Lemma send_error_iff_witness :
  (@None string = None <->
   exists resp,
     server Examples.healthy (wire (Examples.conn 10))
            (executeStmtJSON "execute" "" "COMMIT") = Written (Response resp) /\
     index "status" resp = Some (VStr "ok")) /\
  (@None string <> None -> @nil (string * value) = []).
Proof.
  apply (send_error_iff Examples.healthy (executeStmtJSON "execute" "" "COMMIT")
           (Examples.conn 10) [] None
           (push_wire (executeStmtJSON "execute" "" "COMMIT") (Examples.conn 10))).
  reflexivity.
Defined.

(** X6. A response out of protocol makes [send] panic instead of returning an
    error: an error status without an exception object, or without a text
    in it, and a success whose [responseData] is present but is not an
    object (null included). *)
Theorem send_malformed_panics (E : Env) (request : Request) (c : Conn) (resp : obj) :
  server E (wire c) request = Written (Response resp) ->
  (status_not_ok resp = true ->
   (forall o, index "exception" resp <> Some (VObj o)) ->
   send E request c = Panic assertion_failed (push_wire request c)) /\
  (forall ex,
      status_not_ok resp = true ->
      index "exception" resp = Some (VObj ex) ->
      (forall t, index "text" ex <> Some (VStr t)) ->
      send E request c = Panic assertion_failed (push_wire request c)) /\
  (status_not_ok resp = false ->
   has_key "responseData" resp = true ->
   (forall o, index "responseData" resp <> Some (VObj o)) ->
   send E request c = Panic assertion_failed (push_wire request c)).
Proof.
  intros Hsrv.
  assert (Hsend : send E request c = receive (Response resp) (push_wire request c)).
  { unfold send, asyncSend, mbind, M_bind, get, modify. simpl. now rewrite Hsrv. }
  rewrite Hsend. simpl. repeat split.
  - intros Hst Hex. rewrite Hst. unfold mbind, M_bind, as_map.
    destruct (index "exception" resp) as [[| | | | |o]|]; try reflexivity.
    now destruct (Hex o).
  - intros ex Hst Hex Htext. rewrite Hst. unfold mbind, M_bind. rewrite Hex. simpl.
    unfold as_string. destruct (index "text" ex) as [[| | |t| |]|]; try reflexivity.
    now destruct (Htext t).
  - intros Hst Hkey Hdata. rewrite Hst, Hkey. unfold mbind, M_bind, as_map.
    destruct (index "responseData" resp) as [[| | | | |o]|]; try reflexivity.
    now destruct (Hdata o).
Qed.

Lemma send_malformed_panics_witness :
  send Malformed.bare_error (executeStmtJSON "execute" "" "COMMIT") (Examples.conn 10)
  = Panic assertion_failed
          (push_wire (executeStmtJSON "execute" "" "COMMIT") (Examples.conn 10)) /\
  send Malformed.null_data (executeStmtJSON "execute" "" "COMMIT") (Examples.conn 10)
  = Panic assertion_failed
          (push_wire (executeStmtJSON "execute" "" "COMMIT") (Examples.conn 10)).
Proof.
  split.
  - apply (proj1 (send_malformed_panics Malformed.bare_error
                    (executeStmtJSON "execute" "" "COMMIT") (Examples.conn 10)
                    [("status", VStr "error")] eq_refl));
      [reflexivity | intros o; discriminate].
  - apply (proj2 (proj2 (send_malformed_panics Malformed.null_data
                    (executeStmtJSON "execute" "" "COMMIT") (Examples.conn 10)
                    [("status", VStr "ok"); ("responseData", VNull)] eq_refl)));
      [reflexivity | reflexivity | intros o; discriminate].
Defined.

(** X7. Without bindings, and also when only the first binding is empty,
    whatever rows follow it, [Execute] is one unprepared execute command
    with the schema and the SQL text: one request is written and the
    statement cache is not touched. *)
Theorem Execute_unprepared (E : Env) (sql schema : string) (dataTypes : list value)
    (isColumnar : bool) (rest : list (list value)) (c : Conn) :
  Execute E sql [] schema dataTypes isColumnar c
    = send E (executeStmtJSON "execute" schema sql) c /\
  Execute E sql ([] :: rest) schema dataTypes isColumnar c
    = send E (executeStmtJSON "execute" schema sql) c /\
  wire (final (Execute E sql ([] :: rest) schema dataTypes isColumnar c))
    = (wire c ++ [executeStmtJSON "execute" schema sql])%list /\
  prepStmtCache (final (Execute E sql ([] :: rest) schema dataTypes isColumnar c))
    = prepStmtCache c.
Proof.
  pose proof (send_frame E (executeStmtJSON "execute" schema sql) c) as (H1 & _ & H2 & _).
  repeat split; assumption.
Qed.

Lemma final_bind_keep {S A B} (m : M S A) (f : A -> M S B) (s : S) :
  (forall a s', final (f a s') = s') ->
  final ((m ≫= f) s) = final (m s).
Proof. intros Hf. unfold mbind, M_bind. destruct (m s); simpl; auto. Qed.

Lemma bind_Ok_inv {S A B} (m : M S A) (f : A -> M S B) (s s' : S) (b : B) :
  (m ≫= f) s = Ok b s' -> exists a s1, m s = Ok a s1 /\ f a s1 = Ok b s'.
Proof.
  unfold mbind, M_bind. destruct (m s) as [a s0| | | |]; try discriminate. eauto.
Qed.

Lemma execute_statement_only (E : Env) (statement : string) (c : Conn) :
  let run : M Conn error :=
    '(_, err) ← Execute E statement [] "" [] false; mret err in
  wire (final (run c)) = (wire c ++ [executeStmtJSON "execute" "" statement])%list /\
  prepStmtCache (final (run c)) = prepStmtCache c /\
  forall err c',
    run c = Ok err c' ->
    (err = None <->
     exists resp,
       server E (wire c) (executeStmtJSON "execute" "" statement)
         = Written (Response resp) /\
       index "status" resp = Some (VStr "ok")).
Proof.
  intros run.
  pose proof (send_frame E (executeStmtJSON "execute" "" statement) c)
    as (H1 & _ & H2 & _).
  unfold run. simpl Execute.
  rewrite final_bind_keep by (now intros [res e] s').
  repeat split; try assumption.
  - intros Herr. apply bind_Ok_inv in H as ([res e] & s1 & Hs & [= <- <-]).
    apply (send_result E _ c res e s1 Hs). exact Herr.
  - intros Hresp. apply bind_Ok_inv in H as ([res e] & s1 & Hs & [= <- <-]).
    apply (send_result E _ c res e s1 Hs). exact Hresp.
Qed.

(** X8. [Commit] and [Rollback] each write the single unprepared statement
    COMMIT or ROLLBACK, leave the statement cache alone, and, when they
    return, return nil exactly when the server answered with status "ok". *)
Theorem Commit_Rollback (E : Env) (c : Conn) :
  (wire (final (Commit E c)) = (wire c ++ [executeStmtJSON "execute" "" "COMMIT"])%list /\
   prepStmtCache (final (Commit E c)) = prepStmtCache c /\
   forall err c',
     Commit E c = Ok err c' ->
     (err = None <->
      exists resp,
        server E (wire c) (executeStmtJSON "execute" "" "COMMIT")
          = Written (Response resp) /\
        index "status" resp = Some (VStr "ok"))) /\
  (wire (final (Rollback E c)) = (wire c ++ [executeStmtJSON "execute" "" "ROLLBACK"])%list /\
   prepStmtCache (final (Rollback E c)) = prepStmtCache c /\
   forall err c',
     Rollback E c = Ok err c' ->
     (err = None <->
      exists resp,
        server E (wire c) (executeStmtJSON "execute" "" "ROLLBACK")
          = Written (Response resp) /\
        index "status" resp = Some (VStr "ok"))).
Proof.
  split.
  - exact (execute_statement_only E "COMMIT" c).
  - exact (execute_statement_only E "ROLLBACK" c).
Qed.

(** ** Overlaying column types *)

Lemma index_set_key_eq (key : string) (v : value) (m : obj) :
  index key (set_key key v m) = match v with VNull => None | _ => Some v end.
Proof.
  induction m as [|[k w] m IH]; simpl.
  - now rewrite String.eqb_refl.
  - destruct (String.eqb k key) eqn:Hk; simpl; rewrite Hk; [reflexivity | exact IH].
Qed.

Lemma index_set_key_ne (key key' : string) (v : value) (m : obj) :
  key' <> key -> index key' (set_key key v m) = index key' m.
Proof.
  intros Hne. induction m as [|[k w] m IH]; simpl.
  - destruct (String.eqb_spec key key'); [congruence | reflexivity].
  - destruct (String.eqb_spec k key) as [->|Hk]; simpl.
    + destruct (String.eqb_spec key key'); [congruence | reflexivity].
    + destruct (String.eqb k key'); [reflexivity | exact IH].
Qed.

Lemma overlay_from_spec (dataTypes : list value) :
  forall i defs defs',
    overlay_from i dataTypes defs = Some defs' ->
    length defs' = length defs /\
    (dataTypes = [] \/ (i + length dataTypes <= length defs)%nat) /\
    (forall k dt, dataTypes !! k = Some dt ->
       exists o, defs !! (i + k)%nat = Some (VObj o) /\
                 defs' !! (i + k)%nat = Some (VObj (set_key "dataType" dt o))) /\
    (forall j, (j < i)%nat \/ (i + length dataTypes <= j)%nat -> defs' !! j = defs !! j).
Proof.
  induction dataTypes as [|dt rest IH]; intros i defs defs' H; simpl in H.
  - injection H as <-. repeat split; auto. intros k dt Hk. discriminate.
  - destruct (defs !! i) as [[| | | | |o]|] eqn:Hi; try discriminate.
    pose proof (lookup_lt_Some _ _ _ Hi) as Hlt.
    destruct (IH _ _ _ H) as (Hlen & Hbound & Hset & Hframe).
    rewrite length_insert in Hlen, Hbound.
    repeat split.
    + exact Hlen.
    + right. simpl. destruct Hbound as [->|Hb]; simpl; lia.
    + intros [|k] dt' Hk; simpl in Hk.
      * injection Hk as <-. exists o. rewrite Nat.add_0_r. split; [exact Hi|].
        rewrite Hframe by lia. now apply list_lookup_insert_eq.
      * destruct (Hset k dt' Hk) as (o' & Ho' & Hd').
        exists o'. replace (i + Datatypes.S k)%nat with (Datatypes.S i + k)%nat by lia.
        split; [|exact Hd'].
        rewrite list_lookup_insert_ne in Ho' by lia. exact Ho'.
    + intros j Hj. simpl in Hj. rewrite Hframe by lia.
      apply list_lookup_insert_ne. lia.
Qed.

Lemma overlay_from_too_many (dataTypes defs : list value) :
  (length defs < length dataTypes)%nat -> overlay_from 0 dataTypes defs = None.
Proof.
  intros Hlt. destruct (overlay_from 0 dataTypes defs) as [defs'|] eqn:H; [|reflexivity].
  destruct (overlay_from_spec _ _ _ _ H) as (_ & [->|Hb] & _); simpl in *; lia.
Qed.

(** X9. The loop of [Execute] over the explicit column types, when it does not
    panic: there are no more types than column descriptors, each of the
    first descriptors is a map and now reads the supplied type under
    "dataType" with its other keys as before, and the descriptors past the
    types, like their number, are unchanged. *)
Theorem overlay_dataTypes (dataTypes defs defs' : list value) :
  overlay_from 0 dataTypes defs = Some defs' ->
  length defs' = length defs /\
  (length dataTypes <= length defs)%nat /\
  (forall k dt, dataTypes !! k = Some dt ->
     exists o o', defs !! k = Some (VObj o) /\ defs' !! k = Some (VObj o') /\
                  index "dataType" o' = match dt with VNull => None | _ => Some dt end /\
                  forall key, key <> "dataType" -> index key o' = index key o) /\
  (forall j, (length dataTypes <= j)%nat -> defs' !! j = defs !! j).
Proof.
  intros H. destruct (overlay_from_spec _ _ _ _ H) as (Hlen & Hb & Hset & Hframe).
  repeat split.
  - exact Hlen.
  - destruct Hb as [->|Hb]; simpl in *; lia.
  - intros k dt Hk. destruct (Hset k dt Hk) as (o & Ho & Ho').
    exists o, (set_key "dataType" dt o). repeat split; try assumption.
    + apply index_set_key_eq.
    + intros key Hkey. now apply index_set_key_ne.
  - intros j Hj. apply Hframe. right. simpl. lia.
Qed.

Lemma overlay_dataTypes_witness :
  length [VObj [("name", VStr "ID"); ("dataType", VStr "CHAR")]]
  = length [Sessions.col_def] /\
  (length [VStr "CHAR"] <= length [Sessions.col_def])%nat /\
  (forall k dt, [VStr "CHAR"] !! k = Some dt ->
     exists o o', [Sessions.col_def] !! k = Some (VObj o) /\
                  [VObj [("name", VStr "ID"); ("dataType", VStr "CHAR")]] !! k
                  = Some (VObj o') /\
                  index "dataType" o' = match dt with VNull => None | _ => Some dt end /\
                  forall key, key <> "dataType" -> index key o' = index key o) /\
  (forall j, (length [VStr "CHAR"] <= j)%nat ->
     [VObj [("name", VStr "ID"); ("dataType", VStr "CHAR")]] !! j
     = [Sessions.col_def] !! j).
Proof.
  apply (overlay_dataTypes [VStr "CHAR"] [Sessions.col_def]). reflexivity.
Defined.

(** X10. With more column types than the statement has column descriptors,
    [Execute] panics in the loop over the types once the statement is at
    hand: nothing is executed and no error is returned. *)
Theorem Execute_too_many_dataTypes (E : Env) (sql : string) (b : list value)
    (bs : list (list value)) (schema : string) (dataTypes : list value)
    (isColumnar : bool) (c c0 : Conn) (ps : prepStmt) :
  b <> [] ->
  getPrepStmt E schema sql c = Ok (inl ps) c0 ->
  (length (columnDefs ps) < length dataTypes)%nat ->
  exists msg c',
    Execute E sql (b :: bs) schema dataTypes isColumnar c = Panic msg c' /\
    wire c' = wire c0.
Proof.
  intros Hb Hps Hlen. exists index_out_of_range, c0. split; [|reflexivity].
  unfold Execute. destruct b as [|v b']; [contradiction|].
  rewrite (bind_Ok _ _ _ _ _ Hps). cbv beta iota.
  rewrite (overlay_from_too_many _ _ Hlen).
  destruct dataTypes as [|dt dts]; [simpl in Hlen; lia | reflexivity].
Qed.

Lemma Execute_too_many_dataTypes_witness :
  exists msg c',
    Execute Sessions.dropped_handle Sessions.insert_sql [[VNum 7]] ""
            [VStr "CHAR"; VStr "DATE"] false Sessions.caching_handle_1
    = Panic msg c' /\
    wire c' = wire Sessions.caching_handle_1.
Proof.
  apply (Execute_too_many_dataTypes Sessions.dropped_handle Sessions.insert_sql
           [VNum 7] [] "" [VStr "CHAR"; VStr "DATE"] false
           Sessions.caching_handle_1 Sessions.caching_handle_1
           {| sth := 1; columnDefs := [Sessions.col_def] |});
    [discriminate | vm_compute; reflexivity | simpl; lia].
Defined.

(** ** The other ways of [FetchChan] *)

(** X11. [FetchChan] returns an error and no channel when the execution fails,
    when the response does not hold exactly one result, and when that
    result has no result set; nothing is written after the execution. *)
Theorem FetchChan_errors (E : Env) (fuel : nat) (sql : string) (binds : list value)
    (schema : string) (c c1 : Conn) (response : obj) :
  (forall e,
      Execute E sql [binds] schema [] false c = Ok (response, Some e) c1 ->
      FetchChan E fuel sql binds schema c = Ok (None, Some e) c1) /\
  (forall n,
      Execute E sql [binds] schema [] false c = Ok (response, None) c1 ->
      index "numResults" response = Some (VNum n) ->
      n <> 1 ->
      exists shown,
        FetchChan E fuel sql binds schema c
        = Ok (None, Some ("Unexpected numResults: " +:+ shown)) c1) /\
  (forall results0 rest,
      Execute E sql [binds] schema [] false c = Ok (response, None) c1 ->
      index "numResults" response = Some (VNum 1) ->
      index "results" response = Some (VArr (VObj results0 :: rest)) ->
      index "resultSet" results0 = None ->
      FetchChan E fuel sql binds schema c
      = Ok (None, Some "Missing websocket API resultset") c1).
Proof.
  repeat split.
  - intros e Hexec. unfold FetchChan, mbind, M_bind. now rewrite Hexec.
  - intros n Hexec Hn Hne. unfold FetchChan, mbind, M_bind. rewrite Hexec.
    cbv beta iota. rewrite Hn. simpl.
    destruct (Z.eqb_spec n 1); [contradiction | eexists; reflexivity].
  - intros results0 rest Hexec Hn Hres Hrs. unfold FetchChan, mbind, M_bind.
    rewrite Hexec. cbv beta iota. rewrite Hn. simpl. rewrite Hres. simpl.
    now rewrite Hrs.
Qed.

Lemma FetchChan_errors_witness :
  FetchChan Examples.rejected 0 Paged.select_sql [] "" (Examples.conn 10)
  = Ok (None, Some "syntax error")
       (push_errlog "Server Error: syntax error"
          (push_wire (executeStmtJSON "execute" "" Paged.select_sql) (Examples.conn 10))) /\
  (exists shown,
      FetchChan Results.two_results 0 Paged.select_sql [] "" (Examples.conn 10)
      = Ok (None, Some ("Unexpected numResults: " +:+ shown))
           (push_wire (executeStmtJSON "execute" "" Paged.select_sql)
                      (Examples.conn 10))) /\
  FetchChan Results.row_count 0 Paged.select_sql [] "" (Examples.conn 10)
  = Ok (None, Some "Missing websocket API resultset")
       (push_wire (executeStmtJSON "execute" "" Paged.select_sql) (Examples.conn 10)).
Proof.
  split; [|split].
  - apply (proj1 (FetchChan_errors Examples.rejected 0 Paged.select_sql [] ""
                    (Examples.conn 10)
                    (push_errlog "Server Error: syntax error"
                       (push_wire (executeStmtJSON "execute" "" Paged.select_sql)
                                  (Examples.conn 10)))
                    [])). reflexivity.
  - apply (proj1 (proj2 (FetchChan_errors Results.two_results 0 Paged.select_sql [] ""
                    (Examples.conn 10)
                    (push_wire (executeStmtJSON "execute" "" Paged.select_sql)
                               (Examples.conn 10))
                    [("numResults", VNum 2);
                     ("results", VArr [VObj (Paged.results0 3); VObj (Paged.results0 3)])]))
             2); [reflexivity | reflexivity | lia].
  - apply (proj2 (proj2 (FetchChan_errors Results.row_count 0 Paged.select_sql [] ""
                    (Examples.conn 10)
                    (push_wire (executeStmtJSON "execute" "" Paged.select_sql)
                               (Examples.conn 10))
                    Sessions.inserted))
             [("resultType", VStr "rowCount"); ("rowCount", VNum 1)] []);
      reflexivity.
Defined.

(** X12. A result set without a handle carries its rows inline, column-major:
    [FetchChan] sends them on the channel in row order and closes it,
    writing nothing more to the socket. *)
Theorem FetchChan_inline (E : Env) (fuel : nat) (sql : string) (binds : list value)
    (schema : string) (c c1 : Conn) (response results0 rs : obj) (rest : list value)
    (numRows : Z) (rows : list (list value)) (width : nat) :
  Execute E sql [binds] schema [] false c = Ok (response, None) c1 ->
  index "numResults" response = Some (VNum 1) ->
  index "results" response = Some (VArr (VObj results0 :: rest)) ->
  index "resultSet" results0 = Some (VObj rs) ->
  index "numRows" rs = Some (VNum numRows) ->
  numRows <> 0 ->
  (forall h, index "resultSetHandle" rs <> Some (VNum h)) ->
  index "data" rs = Some (VArr (map VArr (Transpose rows))) ->
  rows <> [] -> (0 < width)%nat -> Forall (fun row => length row = width) rows ->
  FetchChan E fuel sql binds schema c
  = Ok (Some {| sent := rows; closed := true |}, None) c1.
Proof.
  intros Hexec Hn Hres Hrs HnumRows Hnz Hrsh Hdata Hrows Hw Hall.
  unfold FetchChan, mbind, M_bind. rewrite Hexec. cbv beta iota.
  rewrite Hn. simpl. rewrite Hres. simpl. rewrite Hrs. simpl.
  unfold go_FetchChan, FetchChan_go, mbind, M_bind. rewrite HnumRows. simpl.
  destruct (Z.eqb_spec numRows 0); [contradiction|].
  destruct (index "resultSetHandle" rs) as [[| |h| | |]|]; try (now destruct (Hrsh h));
    rewrite Hdata; simpl; unfold transposeToChan, as_columns, mbind, M_bind;
    rewrite columns_of_map_VArr; simpl;
    rewrite (Transpose_involutive rows width) by assumption; reflexivity.
Qed.

Lemma FetchChan_inline_witness :
  FetchChan Results.inline 0 Paged.select_sql [] "" (Examples.conn 10)
  = Ok (Some {| sent := Paged.rows; closed := true |}, None)
       (push_wire (executeStmtJSON "execute" "" Paged.select_sql) (Examples.conn 10)).
Proof.
  eapply (FetchChan_inline Results.inline 0 Paged.select_sql [] "" (Examples.conn 10)
            _ _ _ Results.inline_set [] 3 Paged.rows 2);
    first [ reflexivity | discriminate | lia | repeat constructor
          | intros h; discriminate ].
Defined.

Lemma go_FetchChan_closed (E : Env) (fuel : nat) (rs : obj) (c c' : Conn) (ch : RowChan) :
  go_FetchChan E fuel rs c = Ok ch c' -> closed ch = true.
Proof.
  unfold go_FetchChan.
  destruct (FetchChan_go E fuel rs (c, make_RowChan)) as [u s| | | |] eqn:Hgo;
    try discriminate.
  intros [= <- _]. unfold FetchChan_go in Hgo.
  apply bind_Ok_inv in Hgo as (numRows & s1 & _ & Hgo).
  apply bind_Ok_inv in Hgo as (u' & s2 & _ & Hclose).
  unfold close_chan, modify in Hclose. now injection Hclose as _ <-.
Qed.

(** X13. When [FetchChan] returns it returns either a channel and a nil error
    or no channel and an error.  A channel it returns has been closed by
    the producer, so [FetchSlice] never waits for ever on it and returns
    the rows sent, in order; without a channel it returns the error. *)
Theorem FetchChan_channel_or_error (E : Env) (fuel : nat) (sql : string)
    (binds : list value) (schema : string) (c c' : Conn)
    (ch : option RowChan) (err : error) :
  FetchChan E fuel sql binds schema c = Ok (ch, err) c' ->
  match ch with
  | Some ch =>
      closed ch = true /\ err = None /\
      FetchSlice E fuel sql binds schema c = Ok (sent ch, None) c'
  | None =>
      err <> None /\
      FetchSlice E fuel sql binds schema c = Ok ([], err) c'
  end.
Proof.
  intros H.
  assert (Hshape : match ch with
                   | Some ch => closed ch = true /\ err = None
                   | None => err <> None
                   end).
  { unfold FetchChan in H.
    apply bind_Ok_inv in H as ([response e] & c1 & _ & H).
    destruct e as [e|]; [now injection H as <- <- _|].
    apply bind_Ok_inv in H as (n & c2 & _ & H).
    destruct (negb (n =? 1)%Z); [now injection H as <- <- _|].
    apply bind_Ok_inv in H as (results & c3 & _ & H).
    apply bind_Ok_inv in H as (results0 & c4 & _ & H).
    destruct (index "resultSet" results0) as [rsv|]; [|now injection H as <- <- _].
    apply bind_Ok_inv in H as (rs & c5 & _ & H).
    apply bind_Ok_inv in H as (rc & c6 & Hgo & H).
    injection H as <- <- _. split; [|reflexivity].
    exact (go_FetchChan_closed E fuel rs c5 c6 rc Hgo). }
  unfold FetchSlice. rewrite (bind_Ok _ _ _ _ _ H). cbv beta iota.
  destruct ch as [rc|].
  - destruct Hshape as [Hc ->]. rewrite Hc. auto.
  - auto.
Qed.

Lemma FetchChan_channel_or_error_witness :
  closed {| sent := Paged.rows; closed := true |} = true /\ @None string = None /\
  FetchSlice Paged.env 3 Paged.select_sql [] "" (Examples.conn 10)
  = Ok (sent {| sent := Paged.rows; closed := true |}, None)
       {| Conf := Examples.conf 10; prepStmtCache := ∅;
          wire := [executeStmtJSON "execute" "" Paged.select_sql;
                   fetchJSON "fetch" 7 0 67108864;
                   fetchJSON "fetch" 7 2 67108864;
                   closeResultSetJSON "closeResultSet" [7]];
          errlog := []; proxies := 0 |}.
Proof.
  apply (FetchChan_channel_or_error Paged.env 3 Paged.select_sql [] ""
           (Examples.conn 10) _ (Some {| sent := Paged.rows; closed := true |}) None).
  vm_compute. reflexivity.
Defined.

(** ** A server that returns no rows *)

Lemma push_wires_snoc (l : list Request) (r : Request) (c : Conn) :
  push_wires (l ++ [r]) c = push_wire r (push_wires l c).
Proof. unfold push_wires. now rewrite fold_left_app. Qed.

Lemma push_wires_repeat (r : Request) (n : nat) (c : Conn) :
  push_wires (repeat r n) (push_wire r c) = push_wires (repeat r (Datatypes.S n)) c.
Proof. reflexivity. Qed.

(** X14. The pagination loop has no guard against a fetch that returns no rows:
    when the server answers the fetch at an offset inside the result set
    with zero rows, the loop writes the same fetch again and again and
    never ends; every iteration budget is used up, nothing reaches the
    channel and it is never closed. *)
Theorem fetch_loop_stalls (E : Env) (rs : obj) (rsh numRows i : Z) :
  index "numRows" rs = Some (VNum numRows) ->
  i < numRows ->
  (forall hist,
      server E hist (fetchJSON "fetch" rsh i numBytes_max)
      = Written (Response (ok_response [("numRows", VNum 0); ("data", VArr [])]))) ->
  forall fuel c ch,
    fetch_loop E fuel rs rsh i (c, ch)
    = OutOfFuel (push_wires (repeat (fetchJSON "fetch" rsh i numBytes_max) fuel) c, ch).
Proof.
  intros Hnum Hlt Hsrv. apply Z.ltb_lt in Hlt.
  induction fuel as [|fuel IH]; intros c ch.
  - simpl. unfold mbind, M_bind. rewrite Hnum. simpl. now rewrite Hlt.
  - rewrite <- push_wires_repeat.
    simpl fetch_loop. unfold mbind, M_bind. rewrite Hnum. simpl. rewrite Hlt.
    unfold liftC. simpl fst.
    rewrite (send_ok_data E _ c _ (Hsrv (wire c))). simpl.
    rewrite Z.add_0_r.
    replace (push_rows (Transpose []) (push_wire (fetchJSON "fetch" rsh i numBytes_max) c, ch))
      with (push_wire (fetchJSON "fetch" rsh i numBytes_max) c, ch).
    + apply IH.
    + unfold push_rows. simpl. rewrite app_nil_r. now destruct ch.
Qed.

Lemma fetch_loop_stalls_witness :
  fetch_loop Results.stalling 5 (Paged.result_set 3) 7 0 (Examples.conn 10, make_RowChan)
  = OutOfFuel (push_wires (repeat (fetchJSON "fetch" 7 0 numBytes_max) 5)
                          (Examples.conn 10),
               make_RowChan).
Proof.
  apply (fetch_loop_stalls Results.stalling (Paged.result_set 3) 7 3 0);
    [reflexivity | lia | reflexivity].
Defined.

(** ** The race *)

Lemma select_data_first (data resp : instant) (timer t : Z) (pick : Case) :
  data = Some t -> t < timer ->
  (forall t', resp = Some t' -> t < t') ->
  select data resp timer pick = DataCase.
Proof.
  intros -> Ht Hr. unfold select.
  assert (HD : ready_first (Some t) resp timer DataCase = true).
  { simpl. destruct (Z.leb_spec t timer); [|lia]. simpl.
    destruct resp as [t'|]; [|reflexivity]. simpl.
    specialize (Hr t' eq_refl). destruct (Z.leb_spec t t'); [reflexivity | lia]. }
  assert (HR : ready_first (Some t) resp timer RespCase = false).
  { simpl. destruct resp as [t'|]; [|reflexivity]. specialize (Hr t' eq_refl).
    simpl. destruct (Z.leb_spec t' t); [lia|]. apply andb_false_r. }
  assert (HT : ready_first (Some t) resp timer TimerCase = false).
  { simpl. destruct (Z.leb_spec timer t); [lia | reflexivity]. }
  destruct pick; rewrite ?HD, ?HR, ?HT; reflexivity.
Qed.

Lemma select_resp_first (data resp : instant) (timer t : Z) (pick : Case) :
  resp = Some t -> t < timer ->
  (forall t', data = Some t' -> t < t') ->
  select data resp timer pick = RespCase.
Proof.
  intros -> Ht Hd. unfold select.
  assert (HR : ready_first data (Some t) timer RespCase = true).
  { simpl. destruct (Z.leb_spec t timer); [|lia]. simpl.
    destruct data as [t'|]; [|reflexivity]. simpl.
    specialize (Hd t' eq_refl). destruct (Z.leb_spec t t'); [reflexivity | lia]. }
  assert (HD : ready_first data (Some t) timer DataCase = false).
  { simpl. destruct data as [t'|]; [|reflexivity]. specialize (Hd t' eq_refl).
    simpl. destruct (Z.leb_spec t' t); [lia|]. apply andb_false_r. }
  assert (HT : ready_first data (Some t) timer TimerCase = false).
  { simpl. destruct data as [t'|]; simpl.
    - destruct (Z.leb_spec timer t); [lia|]. apply andb_false_r.
    - destruct (Z.leb_spec timer t); [lia | reflexivity]. }
  destruct pick; rewrite ?HD, ?HR, ?HT; reflexivity.
Qed.

(** X15. The timer only guards the first of the two results.  Once the
    transfer has ended without error before the timer, the race waits for
    the command's reply with no limit: however late it comes, also after
    the timeout, its error is the result and no timeout error arises; if
    it never comes the call waits for ever.  The same holds with the two
    sides exchanged. *)
Theorem race_waits_for_the_other (xfer : Transfer) (a : Attempt)
    (resp : M Conn (obj * error)) (msg : string) (c : Conn) (t : Z) :
  t < Timeout (Conf c) * Second ->
  (xfer_at xfer = Some t -> xfer_err xfer = None ->
   (forall t' r err c',
       resp_at a = Some t' -> t < t' -> resp c = Ok (r, err) c' ->
       race xfer a resp msg c = Ok (Z.max t t', err) c') /\
   (resp_at a = None -> race xfer a resp msg c = Blocked c)) /\
  (forall r c',
      resp_at a = Some t -> resp c = Ok (r, None) c' ->
      (forall t', xfer_at xfer = Some t' -> t < t' ->
                  race xfer a resp msg c = Ok (Z.max t t', xfer_err xfer) c') /\
      (xfer_at xfer = None -> race xfer a resp msg c = Blocked c')).
Proof.
  intros Ht. split.
  - intros Hx He. split.
    + intros t' r err c' Hr Hlt Hresp.
      unfold race. rewrite (bind_Ok get _ c c c eq_refl). cbv zeta.
      rewrite (select_data_first _ _ _ t _ Hx Ht)
        by (intros u Hu; rewrite Hr in Hu; injection Hu as <-; exact Hlt).
      rewrite He, Hr. rewrite (bind_Ok _ _ _ _ _ Hresp). cbv beta iota.
      rewrite Hx. reflexivity.
    + intros Hr. unfold race. rewrite (bind_Ok get _ c c c eq_refl). cbv zeta.
      rewrite (select_data_first _ _ _ t _ Hx Ht)
        by (intros u Hu; rewrite Hr in Hu; discriminate).
      now rewrite He, Hr.
  - intros r c' Hr Hresp. split.
    + intros t' Hx Hlt.
      unfold race. rewrite (bind_Ok get _ c c c eq_refl). cbv zeta.
      rewrite (select_resp_first _ _ _ t _ Hr Ht)
        by (intros u Hu; rewrite Hx in Hu; injection Hu as <-; exact Hlt).
      rewrite (bind_Ok _ _ _ _ _ Hresp). cbv beta iota.
      rewrite Hx, Hr. reflexivity.
    + intros Hx. unfold race. rewrite (bind_Ok get _ c c c eq_refl). cbv zeta.
      rewrite (select_resp_first _ _ _ t _ Hr Ht)
        by (intros u Hu; rewrite Hx in Hu; discriminate).
      rewrite (bind_Ok _ _ _ _ _ Hresp). cbv beta iota. now rewrite Hx.
Qed.


Lemma race_waits_for_the_other_witness :
  race (Write (Examples.proxy 1 20 None Examples.total []) Examples.csv_chan)
       (Examples.proxy 1 20 None Examples.total [])
       (mret ([], None)) "Timed out doing StreamExecute" (Examples.conn 10)
  = Ok (20 * Second, None) (Examples.conn 10).
Proof.
  pose proof (race_waits_for_the_other
                (Write (Examples.proxy 1 20 None Examples.total []) Examples.csv_chan)
                (Examples.proxy 1 20 None Examples.total [])
                (mret ([], None)) "Timed out doing StreamExecute" (Examples.conn 10)
                (1 * Second) eq_refl) as [H _].
  destruct (H eq_refl eq_refl) as [H1 _].
  exact (H1 (20 * Second) [] None (Examples.conn 10) eq_refl eq_refl eq_refl).
Defined.


(** ** A proxy that cannot be started *)

Lemma initProxy_no_proxy (E : Env) (sql : string) (c : Conn) (e : string) :
  proxy_err (bulk E (proxies c)) = Some e ->
  exists c', initProxy E sql c = Ok (inr e) c' /\ wire c' = wire c /\
             proxies c' = Datatypes.S (proxies c).
Proof.
  intros He. unfold initProxy.
  rewrite (bind_Ok get _ c c c eq_refl).
  rewrite (bind_Ok (modify count_proxy) _ c tt (count_proxy c) eq_refl).
  rewrite He.
  destruct (Conn_error_run e (count_proxy c)) as (c' & Hrun & Hp & _ & Hw).
  exists c'. rewrite (bind_Ok _ _ _ _ _ Hrun).
  split; [reflexivity|]. split; [exact Hw|]. rewrite Hp. simpl. lia.
Qed.

(** X17. When the local proxy of an attempt cannot be started, no command is
    put on the wire.  The import attempt returns zero bytes and the proxy's
    error as it is, without the "Unable to bulk import data" wrapping of
    every later error; the export attempt returns the error and leaves the
    [Rows] object as it was. *)
Theorem proxy_failure_sends_nothing (E : Env) (sql : string) (data : ByteChan)
    (c : Conn) (e : string) :
  proxy_err (bulk E (proxies c)) = Some e ->
  (exists c', streamExecuteNoRetry E sql data c = Ok (0, Some e) c' /\
              wire c' = wire c) /\
  (forall r, exists c', streamQuery E sql (c, r) = Ok (Some e) (c', r) /\
                        wire c' = wire c).
Proof.
  intros He. destruct (initProxy_no_proxy E sql c e He) as (c' & Hinit & Hw & _).
  split.
  - exists c'. split; [|exact Hw]. unfold streamExecuteNoRetry.
    now rewrite (bind_Ok _ _ _ _ _ Hinit).
  - intros r. exists c'. split; [|exact Hw]. unfold streamQuery.
    now rewrite (bind_Ok _ _ (c, r) _ _ (liftC_Ok _ (c, r) _ _ Hinit)).
Qed.

Lemma proxy_failure_sends_nothing_witness :
  (exists c', streamExecuteNoRetry Examples.no_proxy Examples.import_sql Examples.csv_chan
                (Examples.conn 10)
              = Ok (0, Some "listen tcp 10.0.0.5:0: bind: address already in use") c' /\
              wire c' = wire (Examples.conn 10)) /\
  (forall r, exists c', streamQuery Examples.no_proxy Examples.import_sql
                          (Examples.conn 10, r)
                        = Ok (Some "listen tcp 10.0.0.5:0: bind: address already in use")
                             (c', r) /\
                        wire c' = wire (Examples.conn 10)).
Proof.
  exact (proxy_failure_sends_nothing Examples.no_proxy Examples.import_sql
           Examples.csv_chan (Examples.conn 10)
           "listen tcp 10.0.0.5:0: bind: address already in use" eq_refl).
Defined.

(** ** Two refusals of an import *)

(** X18. When both attempts of an import are refused with zero bytes written,
    the second refusal is logged as a retry like the first; the loop is
    then over and [StreamExecute] returns nil: the caller is told of no
    error, after two attempts. *)
Theorem StreamExecute_two_refusals (E : Env) (sql : string) (data : ByteChan)
    (c c1 c2 : Conn) (e1 e2 : string) :
  streamExecuteNoRetry E sql data c = Ok (0, Some e1) c1 ->
  retryableError (Some e1) = true ->
  streamExecuteNoRetry E sql data (final (Conn_error "Retrying..." c1))
  = Ok (0, Some e2) c2 ->
  retryableError (Some e2) = true ->
  StreamExecute E sql (Some data) c = Ok None (final (Conn_error "Retrying..." c2)) /\
  proxies (final (Conn_error "Retrying..." c2)) = (proxies c + 2)%nat.
Proof.
  intros H1 R1 H2 R2.
  assert (Hrun : StreamExecute E sql (Some data) c
                 = Ok None (final (Conn_error "Retrying..." c2))).
  { unfold StreamExecute.
    change (StreamExecute_loop E [1; 2] sql data)
      with ('(bytesWritten, err) ← streamExecuteNoRetry E sql data;
            match err with
            | Some e =>
                if retryableError err then
                  if (bytesWritten =? 0)%Z then
                    Conn_error "Retrying...";; StreamExecute_loop E [2] sql data
                  else
                    Conn_error "Data already sent can't retry...";;
                    Conn_error e;; mret (Some e)
                else Conn_error e;; mret (Some e)
            | None => mret None
            end).
    rewrite (bind_Ok _ _ _ _ _ H1). cbv beta iota. rewrite R1.
    change (0 =? 0)%Z with true. cbv iota.
    destruct (Conn_error_run "Retrying..." c1) as (c1' & Hc1 & _).
    rewrite (bind_Ok _ _ _ _ _ Hc1). rewrite Hc1 in H2. simpl final in H2.
    rewrite (StreamExecute_loop_last_refusal E 2 sql data c1' e2 c2 H2 R2).
    destruct (Conn_error_run "Retrying..." c2) as (c2' & Hc2 & _).
    rewrite (bind_Ok _ _ _ _ _ Hc2). rewrite Hc2. reflexivity. }
  split; [exact Hrun|].
  pose proof (streamExecuteNoRetry_proxies E sql data c) as P1.
  pose proof (streamExecuteNoRetry_proxies E sql data (final (Conn_error "Retrying..." c1)))
    as P2.
  rewrite H1 in P1. rewrite H2 in P2.
  destruct (Conn_error_run "Retrying..." c1) as (c1' & Hc1 & Hp1 & _).
  destruct (Conn_error_run "Retrying..." c2) as (c2' & Hc2 & Hp2 & _).
  rewrite Hc1 in P2. rewrite Hc2. unfold final in *. lia.
Qed.

Lemma StreamExecute_two_refusals_witness :
  exists c',
    StreamExecute Examples.refused_always Examples.import_sql (Some Examples.csv_chan)
                  (Examples.conn 10) = Ok None c' /\
    proxies c' = 2%nat.
Proof.
  pose (run := streamExecuteNoRetry Examples.refused_always Examples.import_sql
                 Examples.csv_chan).
  pose (c1 := final (run (Examples.conn 10))).
  pose (c2 := final (run (final (Conn_error "Retrying..." c1)))).
  exists (final (Conn_error "Retrying..." c2)).
  apply (StreamExecute_two_refusals Examples.refused_always Examples.import_sql
           Examples.csv_chan (Examples.conn 10) c1 c2
           ("Unable to bulk import data: " +:+ Examples.import_sql
              +:+ String Text.newline Examples.refused)
           ("Unable to bulk import data: " +:+ Examples.import_sql
              +:+ String Text.newline Examples.refused));
    vm_compute; reflexivity.
Defined.

(** ** What the bulk operations leave alone *)

Section BulkFrame.

Context (E : Env) (R : Conn -> Conn -> Prop) `{!LogStable R}
        (R_push : forall c r, R c (push_wire r c))
        (R_count : forall c, R c (count_proxy c)).

#[local] Instance onConn_refl : Reflexive (onConn R).
Proof. intros s. unfold onConn. reflexivity. Qed.

#[local] Instance onConn_trans : Transitive (onConn R).
Proof. intros x y z. unfold onConn. apply transitivity. Qed.

Lemma race_frame xfer a resp msg : stable R resp -> stable R (race xfer a resp msg).
Proof.
  intros Hresp. unfold race. repeat first [exact Hresp | stable_step].
Qed.

Lemma initProxy_frame sql :
  hoare R (fun r => match r with
                    | inl (_, resp) => stable R resp
                    | inr _ => True
                    end)
        (initProxy E sql).
Proof.
  unfold initProxy.
  eapply hoare_bind; [tc_solve | apply hoare_get; tc_solve |]. intros c _. cbv zeta.
  eapply hoare_bind; [tc_solve | apply hoare_modify, R_count |]. intros _ _.
  destruct (proxy_err (bulk E (proxies c))) as [e|].
  - eapply hoare_bind; [tc_solve | apply Conn_error_stable; tc_solve |].
    intros _ _. now apply hoare_ret; [tc_solve|].
  - eapply hoare_bind; [tc_solve | |].
    { apply (asyncSend_stable E R (fun _ => True)); auto. }
    intros [[rcv|] err] H; simpl in *.
    + apply hoare_ret; [tc_solve|]. now apply H.
    + eapply hoare_bind; [tc_solve | apply Conn_error_stable; tc_solve |].
      intros _ _. now apply hoare_ret; [tc_solve|].
Qed.

Lemma streamExecuteNoRetry_frame sql data : stable R (streamExecuteNoRetry E sql data).
Proof.
  unfold streamExecuteNoRetry.
  eapply stable_hoare_bind; [tc_solve | apply initProxy_frame |].
  intros [[a resp]|e] H.
  - apply stable_bind; [tc_solve | now apply race_frame |].
    intros [t [e|]]; repeat stable_step.
  - repeat stable_step.
Qed.

Lemma StreamExecute_loop_frame its sql data : stable R (StreamExecute_loop E its sql data).
Proof.
  induction its as [|i rest IH]; simpl; [repeat stable_step|].
  apply stable_bind; [tc_solve | apply streamExecuteNoRetry_frame |].
  intros [b [e|]];
    repeat first [exact IH | apply Conn_error_stable; tc_solve | stable_step].
Qed.

Lemma StreamExecute_frame sql data : stable R (StreamExecute E sql data).
Proof.
  destruct data as [data|]; unfold StreamExecute.
  - apply StreamExecute_loop_frame.
  - unfold log_Fatal. repeat stable_step.
Qed.

Lemma BulkExecute_frame sql buf : stable R (BulkExecute E sql buf).
Proof.
  destruct buf as [buf|]; unfold BulkExecute; [|unfold log_Fatal; repeat stable_step].
  unfold chan_send, chan_close.
  repeat first [apply StreamExecute_frame | stable_step].
Qed.

Lemma streamQuery_frame sql : stable (onConn R) (streamQuery E sql).
Proof.
  unfold streamQuery.
  eapply stable_hoare_bind; [tc_solve | apply (hoare_liftC R), initProxy_frame |].
  intros [[a resp]|e] H; [|repeat stable_step].
  apply stable_bind; [tc_solve | |intros _].
  { apply hoare_modify. intros s. unfold onConn. simpl. reflexivity. }
  apply stable_bind; [tc_solve | |].
  { apply (hoare_liftC R). now apply race_frame. }
  intros [t err]. apply stable_bind; [tc_solve | |intros _].
  { destruct (done_by _ _); [|repeat stable_step].
    apply hoare_modify. intros s. unfold onConn. simpl. reflexivity. }
  destruct err as [e|]; [|repeat stable_step].
  apply stable_bind; [tc_solve | |intros _; repeat stable_step].
  apply (hoare_liftC R). apply Conn_error_stable; tc_solve.
Qed.

Lemma StreamQuery_loop_frame its sql : stable (onConn R) (StreamQuery_loop E its sql).
Proof.
  induction its as [|i rest IH]; simpl; [repeat stable_step|].
  apply stable_bind; [tc_solve | apply streamQuery_frame |]. intros err.
  apply stable_bind; [tc_solve | |intros _].
  { apply hoare_modify. intros s. unfold onConn. simpl. reflexivity. }
  destruct (retryableError err); [|repeat stable_step].
  apply stable_bind; [tc_solve | |intros _].
  { apply (hoare_liftC R). apply Conn_error_stable; tc_solve. }
  apply stable_bind; [tc_solve | |intros _; exact IH].
  apply hoare_modify. intros s. unfold onConn. simpl. reflexivity.
Qed.

Lemma StreamQuery_go_frame sql : stable (onConn R) (StreamQuery_go E sql).
Proof.
  unfold StreamQuery_go.
  apply stable_bind; [tc_solve | apply StreamQuery_loop_frame | intros _].
  apply hoare_modify. intros s. unfold onConn. simpl. reflexivity.
Qed.

Lemma StreamQuery_frame sql : stable R (StreamQuery E sql).
Proof.
  intros c. split; [|now destruct (StreamQuery E sql c)].
  destruct (StreamQuery_go_frame sql (c, new_Rows)) as [H _].
  unfold StreamQuery. unfold onConn in H.
  destruct (StreamQuery_go E sql (c, new_Rows)); exact H.
Qed.

Lemma BulkQuery_frame sql buf : stable R (BulkQuery E sql buf).
Proof.
  destruct buf as [buf|]; unfold BulkQuery; [|unfold log_Fatal; repeat stable_step].
  apply stable_bind; [tc_solve | apply StreamQuery_frame |]. intros rows.
  repeat stable_step.
Qed.

End BulkFrame.

#[local] Instance keeps_session_LogStable : LogStable keeps_session.
Proof.
  split.
  - intros c. split; reflexivity.
  - intros x y z [H1 H2] [H3 H4]. split; congruence.
  - intros c msg. split; reflexivity.
Qed.

(** X19. The bulk operations never change the configuration of the session,
    its error-suppression flag included, nor its cache of prepared
    statements, however they end: with a result, a fatal log call, or
    waiting for ever. *)
Theorem bulk_keeps_session (E : Env) (sql : string) (c : Conn) :
  (forall data, keeps_session c (final (StreamExecute E sql data c))) /\
  (forall buf, keeps_session c (final (BulkExecute E sql buf c))) /\
  keeps_session c (final (StreamQuery E sql c)) /\
  (forall buf, keeps_session c (final (BulkQuery E sql buf c))).
Proof.
  assert (Hp : forall c r, keeps_session c (push_wire r c)) by (intros; split; reflexivity).
  assert (Hc : forall c, keeps_session c (count_proxy c)) by (intros; split; reflexivity).
  repeat split.
  - apply (StreamExecute_frame E keeps_session Hp Hc sql data c).
  - apply (StreamExecute_frame E keeps_session Hp Hc sql data c).
  - apply (BulkExecute_frame E keeps_session Hp Hc sql buf c).
  - apply (BulkExecute_frame E keeps_session Hp Hc sql buf c).
  - apply (StreamQuery_frame E keeps_session Hp Hc sql c).
  - apply (StreamQuery_frame E keeps_session Hp Hc sql c).
  - apply (BulkQuery_frame E keeps_session Hp Hc sql buf c).
  - apply (BulkQuery_frame E keeps_session Hp Hc sql buf c).
Qed.

(** ** Closing an export stream *)

Lemma Close_run (running : bool) (stop : list bool) (rest : M (Conn * Rows) unit)
    (s : Conn * Rows) :
  Close running stop rest s
  = (rest;;
     modify (set_SuppressError (SuppressError (Conf (fst s))));;
     mret (running && match stop with [] => true | _ => false end))
      (if running then set_SuppressError true s else s).
Proof.
  unfold Close. rewrite (bind_Ok get _ s s s eq_refl). cbv zeta.
  destruct running; reflexivity.
Qed.

(** X20. [Rows.Close] leaves the error-suppression flag, and the rest of the
    configuration, as it found them, provided the goroutine of the stream
    does not itself change the configuration: the flag is raised only when
    the proxy is running and only while the goroutine is waited for.  The
    stop signal is sent when the proxy is running and the slot of [r.stop]
    is free.  When the goroutine never ends, [Close] never returns and the
    flag stays raised. *)
Theorem Close_restores_flag (running : bool) (stop : list bool)
    (rest : M (Conn * Rows) unit) (s : Conn * Rows) :
  stable (onConn keeps_session) rest ->
  (forall signalled s',
      Close running stop rest s = Ok signalled s' ->
      Conf (fst s') = Conf (fst s) /\
      signalled = running && match stop with [] => true | _ => false end) /\
  (forall s',
      Close running stop rest s = Blocked s' ->
      SuppressError (Conf (fst s')) = running || SuppressError (Conf (fst s))).
Proof.
  intros Hrest. rewrite Close_run.
  set (s0 := if running then set_SuppressError true s else s).
  destruct (Hrest s0) as [[HC _] _].
  assert (H0 : SuppressError (Conf (fst s0)) = running || SuppressError (Conf (fst s))).
  { subst s0. destruct running; reflexivity. }
  assert (H1 : forall b, Conf (fst (set_SuppressError (SuppressError (Conf (fst s))) 
                                      (set_SuppressError b s))) = Conf (fst s)).
  { intros b. simpl. destruct (Conf (fst s)). reflexivity. }
  unfold mbind, M_bind, modify. split.
  - intros signalled s'. destruct (rest s0) as [[] s1| | | |]; try discriminate.
    simpl in HC. intros [= <- <-]. split; [|reflexivity].
    simpl. rewrite HC. subst s0. destruct running.
    + simpl. destruct (Conf (fst s)). reflexivity.
    + destruct (Conf (fst s)). reflexivity.
  - intros s'. destruct (rest s0) as [[] s1| | | |]; try discriminate.
    simpl in HC. intros [= <-]. now rewrite HC.
Qed.

Lemma Close_restores_flag_witness :
  exists s',
    Close true [] (StreamQuery_go Examples.healthy Examples.export_sql)
          (Examples.conn 10, new_Rows) = Ok true s' /\
    Conf (fst s') = Examples.conf 10.
Proof.
  pose (m := Close true [] (StreamQuery_go Examples.healthy Examples.export_sql)
               (Examples.conn 10, new_Rows)).
  exists (final m).
  assert (Hm : m = Ok true (final m)) by (vm_compute; reflexivity).
  split; [exact Hm|].
  refine (proj1 (proj1 (Close_restores_flag true []
                          (StreamQuery_go Examples.healthy Examples.export_sql)
                          (Examples.conn 10, new_Rows) _) true (final m) Hm)).
  apply (StreamQuery_go_frame Examples.healthy keeps_session);
    intros; split; reflexivity.
Defined.

(** ** The statement closed after a recovery *)

(** X21. With statement caching off [Execute] closes its statement when it is
    done.  After a recovery from "Statement handle not found" the handle
    it closes is the one of the first preparation, which the server has
    just reported unknown: the statement prepared in the recovery block
    is bound to a variable of that block, and is left open. *)
Theorem Execute_recovery_closes_stale_handle (E : Env) (sql : string) (b : list value)
    (bs : list (list value)) (schema : string) (isColumnar : bool)
    (c c0 c1 c2 c3 : Conn) (ps ps2 : prepStmt) (col : list value)
    (cols : list (list value)) (res res2 : obj) (e : string) (err2 : error) :
  b <> [] ->
  getPrepStmt E schema sql c = Ok (inl ps) c0 ->
  (if isColumnar then b :: bs else Transpose (b :: bs)) = col :: cols ->
  send E (execPrepStmtJSON "executePreparedStatement" (sth ps)
            (length (col :: cols)) (length col) (columnDefs ps) (col :: cols)) c0
    = Ok (res, Some e) c1 ->
  handleNotFound e = true ->
  getPrepStmt E schema sql (set_cache (delete sql) c1) = Ok (inl ps2) c2 ->
  send E (execPrepStmtJSON "executePreparedStatement" (sth ps2)
            (length (col :: cols)) (length col) (columnDefs ps) (col :: cols)) c2
    = Ok (res2, err2) c3 ->
  CachePrepStmts (Conf c3) = false ->
  Execute E sql (b :: bs) schema [] isColumnar c
    = (closePrepStmt E (sth ps);; mret (res2, Some e)) c3.
Proof.
  intros Hb Hps Hbinds Hsend He Hps2 Hsend2 Hoff.
  unfold Execute. destruct b as [|v b']; [contradiction|].
  rewrite (bind_Ok _ _ _ _ _ Hps).
  rewrite (bind_Ok (mret ps) _ c0 ps c0 eq_refl).
  cbv zeta. rewrite Hbinds.
  rewrite (bind_Ok (mret (length col)) _ c0 (length col) c0 eq_refl).
  rewrite (bind_Ok _ _ _ _ _ Hsend). cbv beta iota. rewrite He.
  rewrite (bind_Ok (modify (set_cache (delete sql))) _ c1 tt _ eq_refl).
  rewrite (bind_Ok _ _ _ _ _ Hps2).
  rewrite (bind_Ok _ _ _ _ _ Hsend2). cbv beta iota.
  unfold Execute_return. rewrite (bind_Ok get _ c3 c3 c3 eq_refl).
  now rewrite Hoff.
Qed.

Lemma Execute_recovery_closes_stale_handle_witness :
  exists c',
    Execute Sessions.forgetful Sessions.insert_sql [[VNum 7]] "" [] false
            Sessions.not_caching
    = Ok (Sessions.inserted, Some "Statement handle not found") c' /\
    wire c' = [createPrepStmtJSON "createPreparedStatement" "" Sessions.insert_sql;
               execPrepStmtJSON "executePreparedStatement" 1 1 1
                                [Sessions.col_def] [[VNum 7]];
               createPrepStmtJSON "createPreparedStatement" "" Sessions.insert_sql;
               execPrepStmtJSON "executePreparedStatement" 2 1 1
                                [Sessions.col_def] [[VNum 7]];
               closePrepStmtJSON "closePreparedStatement" 1].
Proof.
  pose (exec h := execPrepStmtJSON "executePreparedStatement" h 1 1
                    [Sessions.col_def] [[VNum 7]]).
  pose (c0 := final (getPrepStmt Sessions.forgetful "" Sessions.insert_sql
                       Sessions.not_caching)).
  pose (c1 := final (send Sessions.forgetful (exec 1) c0)).
  pose (c2 := final (getPrepStmt Sessions.forgetful "" Sessions.insert_sql
                       (set_cache (delete Sessions.insert_sql) c1))).
  pose (c3 := final (send Sessions.forgetful (exec 2) c2)).
  exists (final (closePrepStmt Sessions.forgetful 1 c3)).
  rewrite (Execute_recovery_closes_stale_handle Sessions.forgetful Sessions.insert_sql
             [VNum 7] [] "" false Sessions.not_caching c0 c1 c2 c3
             {| sth := 1; columnDefs := [Sessions.col_def] |}
             {| sth := 2; columnDefs := [Sessions.col_def] |}
             [VNum 7] [] [] Sessions.inserted "Statement handle not found" None);
    try (vm_compute; reflexivity); [|discriminate].
  split; vm_compute; reflexivity.
Defined.
